(** * pion HTTP server: resource registry, redirects and request dispatch

    A shallow embedding of [src/src/http_server.cpp] (class [HTTPServer]):
    the handler registry ([findRequestHandler], [addResource],
    [removeResource]), the redirect table ([addRedirect]), the request
    dispatcher ([handleRequest]) and the default error responders.

    Conventions of the embedding:
    - [std::string] is [string]; its ordering is the byte-wise
      lexicographic one, [String.compare];
    - [std::map<std::string, V>] whose iteration order matters (the
      registry) is a strictly ascending association list, an iterator is an
      index into it; the redirect table, only ever searched by key, is a
      [gmap string string];
    - [unsigned int] is a [Z] with its wrap-around modulo 2^32 written out;
    - side effects on the connection and the wire are recorded as a trace of
      [event]s, exceptions as an optional [exn] in the outcome;
    - log statements ([PION_LOG_*]) have no effect on the state and are
      left out. *)

From Stdlib Require Import ZArith Lia Ascii.
From Stdlib Require String.
From stdpp Require Import base tactics option list sorting gmap strings.

(** ** std::string *)

Module StdString.

(** [s.size()] *)
Definition size (s : string) : nat := String.length s.

(** [s.empty()] *)
Definition empty (s : string) : bool :=
  match s with EmptyString => true | String _ _ => false end.

(** [s[n]]: for [n = s.size()] the standard gives the null character. *)
Definition at_ (s : string) (n : nat) : ascii :=
  match String.get n s with Some c => c | None => Ascii.zero end.

(** [s.compare(pos, len, str)] for [pos = 0]: compares the substring
    [s.substr(0, min(len, s.size()))] with [str]. *)
Definition compare (s : string) (len : nat) (str : string) : comparison :=
  String.compare (String.substring 0 len s) str.

(** [a < b], the comparison of [std::less<std::string>]. *)
Definition lt (a b : string) : bool := String.ltb a b.

(** [s.resize(n)] for [n <= s.size()]. *)
Definition resize (s : string) (n : nat) : string := String.substring 0 n s.

(** [needle] occurs somewhere in [hay]. *)
Fixpoint contains (needle hay : string) : bool :=
  String.prefix needle hay ||
  match hay with
  | EmptyString => false
  | String _ hay' => contains needle hay'
  end.

End StdString.

(** ** std::map<std::string, V>, ordered by key *)

Module StdMap.

Section Ops.
Context {V : Type}.

Definition key_lt (e1 e2 : string * V) : Prop :=
  StdString.lt e1.1 e2.1 = true.

(** The representation invariant of the red-black tree: keys strictly
    ascending (hence unique). *)
Definition sorted (m : list (string * V)) : Prop := StronglySorted key_lt m.

(** [m.insert(std::make_pair(k, v))]: an existing entry with an
    equivalent key is kept, the new pair is dropped. *)
Fixpoint insert (k : string) (v : V) (m : list (string * V))
  : list (string * V) :=
  match m with
  | [] => [(k, v)]
  | (k', v') :: m' =>
      match String.compare k k' with
      | Lt => (k, v) :: m
      | Eq => m
      | Gt => (k', v') :: insert k v m'
      end
  end.

(** [m.erase(k)]: removes the entry whose key is [k], if there is one. *)
Fixpoint erase (k : string) (m : list (string * V)) : list (string * V) :=
  match m with
  | [] => []
  | (k', v') :: m' =>
      if String.eqb k k' then erase k m' else (k', v') :: erase k m'
  end.

(** [m.find(k)], [None] standing for [m.end()]. *)
Fixpoint find (k : string) (m : list (string * V)) : option V :=
  match m with
  | [] => None
  | (k', v') :: m' => if String.eqb k k' then Some v' else find k m'
  end.

(** [m.upper_bound(k)]: the position of the first entry whose key is
    greater than [k], [length m] standing for [m.end()]. *)
Fixpoint upper_bound (k : string) (m : list (string * V)) : nat :=
  match m with
  | [] => 0
  | (k', _) :: m' =>
      if StdString.lt k k' then 0 else S (upper_bound k m')
  end.

End Ops.

End StdMap.

(** ** Resource names *)

(** Modelled from the spec: [stripTrailingSlash] is declared in
    [pion/http/server.hpp], which is not part of the sources at hand.  The
    spec (sections 4.6, 4.8 and 6) has it strip a single trailing ['/']. *)
Definition stripTrailingSlash (str : string) : string :=
  if negb (StdString.empty str)
     && Ascii.eqb (StdString.at_ str (StdString.size str - 1)) "/"
  then StdString.resize str (StdString.size str - 1)
  else str.

(** ** The handler registry *)

Section Registry.
Context {RequestHandler : Type}.

(** The test of [findRequestHandler] on one entry: the outer [if]
    (key empty, or the resource starts with the key) and the inner one
    (the resource ends there, or goes on with a ['/']). *)
Definition entry_matches (resource key : string) : bool :=
  (StdString.empty key
   || match StdString.compare resource (StdString.size key) key with
      | Eq => true
      | _ => false
      end)
  && (Nat.eqb (StdString.size resource) (StdString.size key)
      || Ascii.eqb (StdString.at_ resource (StdString.size key)) "/").

(** The loop [while (i != m_resources.begin()) { --i; ... }]. *)
Fixpoint walk_down (resource : string) (m : list (string * RequestHandler))
    (i : nat) : option RequestHandler :=
  match i with
  | O => None
  | S j =>
      match m !! j with
      | Some (key, handler) =>
          if entry_matches resource key then Some handler
          else walk_down resource m j
      | None => None
      end
  end.

(** [HTTPServer::findRequestHandler]: [Some h] for [true] with
    [request_handler = h], [None] for [false]. *)
Definition findRequestHandler (m_resources : list (string * RequestHandler))
    (resource : string) : option RequestHandler :=
  match m_resources with
  | [] => None
  | _ => walk_down resource m_resources
           (StdMap.upper_bound resource m_resources)
  end.

(** [HTTPServer::addResource] *)
Definition addResource (resource : string) (request_handler : RequestHandler)
    (m_resources : list (string * RequestHandler))
    : list (string * RequestHandler) :=
  let clean_resource := stripTrailingSlash resource in
  StdMap.insert clean_resource request_handler m_resources.

(** [HTTPServer::removeResource] *)
Definition removeResource (resource : string)
    (m_resources : list (string * RequestHandler))
    : list (string * RequestHandler) :=
  let clean_resource := stripTrailingSlash resource in
  StdMap.erase clean_resource m_resources.

End Registry.

(** ** Messages, connections, error codes *)

(** Modelled from the spec: the request class ([pion/http/request.hpp]) is
    not part of the sources at hand.  The spec (section 3) gives a message
    a method, a current resource, an original resource (the copy of the
    first-seen resource) and a validity flag; [changeResource] rewrites the
    current resource only. *)
Record HTTPRequest := {
  m_method : string;
  m_resource : string;
  m_original_resource : string;
  m_is_valid : bool
}.

Definition getMethod (r : HTTPRequest) : string := m_method r.
Definition getResource (r : HTTPRequest) : string := m_resource r.
Definition getOriginalResource (r : HTTPRequest) : string :=
  m_original_resource r.
Definition isValid (r : HTTPRequest) : bool := m_is_valid r.

(** Modelled from the spec: [changeResource] belongs to the same absent
    class; by section 3 of the spec the redirect step rewrites the current
    resource, and the original resource never changes once set. *)
Definition changeResource (r : HTTPRequest) (str : string) : HTTPRequest :=
  {| m_method := m_method r;
     m_resource := str;
     m_original_resource := m_original_resource r;
     m_is_valid := m_is_valid r |}.

(** Modelled from the spec: the connection class ([pion/tcp/connection.hpp])
    is not part of the sources at hand.  The spec (section 3) gives it a
    lifecycle flag and an open flag. *)
Inductive lifecycle_type := LIFECYCLE_CLOSE | LIFECYCLE_KEEPALIVE.

Record connection := {
  m_lifecycle : lifecycle_type;
  m_is_open : bool
}.

Definition set_lifecycle (c : connection) (t : lifecycle_type) : connection :=
  {| m_lifecycle := t; m_is_open := m_is_open c |}.
Definition is_open (c : connection) : bool := m_is_open c.

(** [boost::system::error_code]: a value and a category; the code compares
    the address of the category with that of the parser's. *)
Inductive error_category :=
| parser_error_category
| system_category
| asio_error_category.

Record error_code := {
  ec_value : Z;
  ec_category : error_category
}.

(** [if (ec)]: an error code is set when its value is not zero. *)
Definition ec_is_set (ec : error_code) : bool := negb (Z.eqb (ec_value ec) 0).

Definition is_parser_category (c : error_category) : bool :=
  match c with parser_error_category => true | _ => false end.

(** What a handler can throw: [std::bad_alloc], another [std::exception]
    with its [what()] text, or an object that is no [std::exception]. *)
Inductive exn :=
| bad_alloc
| std_exception (what : string)
| non_std_exception.

(** ** Responses *)

(** Modelled from the spec: the status constants of [HTTPTypes] are not part
    of the sources at hand; section 4.9 of the spec gives the codes. *)
Definition RESPONSE_CODE_OK : Z := 200.
Definition RESPONSE_CODE_BAD_REQUEST : Z := 400.
Definition RESPONSE_CODE_NOT_FOUND : Z := 404.
Definition RESPONSE_CODE_SERVER_ERROR : Z := 500.

Inductive reason_phrase :=
| RESPONSE_MESSAGE_OK
| RESPONSE_MESSAGE_BAD_REQUEST
| RESPONSE_MESSAGE_NOT_FOUND
| RESPONSE_MESSAGE_SERVER_ERROR.

Record HTTPResponse := {
  m_status_code : Z;
  m_status_message : reason_phrase;
  m_content : string
}.

(** The callback a writer runs once its response is on the wire. *)
Inductive finished_handler := connection_finish.

(** Modelled from the spec: the response writer
    ([pion/http/response_writer.hpp]) is not part of the sources at hand.
    The spec (section 4.5) has it accumulate a status and a body, the
    writes appending to the body in order, and [send] emit the lot and
    then run the finished callback given at construction. *)
Module HTTPResponseWriter.

Record t := {
  response : HTTPResponse;
  finished : finished_handler
}.

Definition create (f : finished_handler) : t :=
  {| response := {| m_status_code := RESPONSE_CODE_OK;
                    m_status_message := RESPONSE_MESSAGE_OK;
                    m_content := "" |};
     finished := f |}.

Definition setStatusCode (w : t) (n : Z) : t :=
  {| response := {| m_status_code := n;
                    m_status_message := m_status_message (response w);
                    m_content := m_content (response w) |};
     finished := finished w |}.

Definition setStatusMessage (w : t) (msg : reason_phrase) : t :=
  {| response := {| m_status_code := m_status_code (response w);
                    m_status_message := msg;
                    m_content := m_content (response w) |};
     finished := finished w |}.

(** [writeNoCopy(data)] and [writer << data] *)
Definition write (w : t) (data : string) : t :=
  {| response := {| m_status_code := m_status_code (response w);
                    m_status_message := m_status_message (response w);
                    m_content := m_content (response w) +:+ data |};
     finished := finished w |}.

End HTTPResponseWriter.

(** ** Handlers and the trace of a dispatch *)

(** A request handler is called with the request and the connection; it
    returns ([None]) or throws ([Some e]).  What the handler itself does
    with the connection is its own business and is not recorded. *)
Definition RequestHandler : Type := HTTPRequest -> connection -> option exn.

(** The authenticator's [handleRequest]: [false] when it has answered the
    request itself. *)
Definition HTTPAuth : Type := HTTPRequest -> connection -> bool.

Inductive event :=
| EvSetLifecycle (t : lifecycle_type)
    (** [tcp_conn->set_lifecycle(t)] *)
| EvFinish
    (** [tcp_conn->finish()] called by the dispatcher itself *)
| EvChangeResource (str : string)
    (** [http_request->changeResource(str)] *)
| EvBadRequest (r : HTTPRequest)
    (** [m_bad_request_handler(http_request, tcp_conn)] *)
| EvNotFound (r : HTTPRequest)
    (** [m_not_found_handler(http_request, tcp_conn)] *)
| EvServerError (r : HTTPRequest) (error_msg : string)
    (** [m_server_error_handler(http_request, tcp_conn, error_msg)] *)
| EvAuth (r : HTTPRequest) (verdict : bool)
    (** [m_auth_ptr->handleRequest(http_request, tcp_conn)] and its result *)
| EvHandler (h : RequestHandler) (r : HTTPRequest)
    (** [request_handler(http_request, tcp_conn)] *)
| EvSend (resp : HTTPResponse) (f : finished_handler)
    (** [writer->send()] *).

Definition send (w : HTTPResponseWriter.t) : list event :=
  [EvSend (HTTPResponseWriter.response w) (HTTPResponseWriter.finished w)].

(** ** The default error responders *)

Definition nl : string := String (ascii_of_nat 10) "".

Definition BAD_REQUEST_HTML : string :=
  "<html><head>" +:+ nl +:+
  "<title>400 Bad Request</title>" +:+ nl +:+
  "</head><body>" +:+ nl +:+
  "<h1>Bad Request</h1>" +:+ nl +:+
  "<p>Your browser sent a request that this server could not understand.</p>"
  +:+ nl +:+
  "</body></html>" +:+ nl.

Definition NOT_FOUND_HTML_START : string :=
  "<html><head>" +:+ nl +:+
  "<title>404 Not Found</title>" +:+ nl +:+
  "</head><body>" +:+ nl +:+
  "<h1>Not Found</h1>" +:+ nl +:+
  "<p>The requested URL ".

Definition NOT_FOUND_HTML_FINISH : string :=
  " was not found on this server.</p>" +:+ nl +:+
  "</body></html>" +:+ nl.

Definition SERVER_ERROR_HTML_START : string :=
  "<html><head>" +:+ nl +:+
  "<title>500 Server Error</title>" +:+ nl +:+
  "</head><body>" +:+ nl +:+
  "<h1>Internal Server Error</h1>" +:+ nl +:+
  "<p>The server encountered an internal error: <strong>".

Definition SERVER_ERROR_HTML_FINISH : string :=
  "</strong></p>" +:+ nl +:+
  "</body></html>" +:+ nl.

(** [HTTPServer::handleBadRequest] *)
Definition handleBadRequest (http_request : HTTPRequest)
    (tcp_conn : connection) : list event :=
  let writer := HTTPResponseWriter.create connection_finish in
  let writer :=
    HTTPResponseWriter.setStatusCode writer RESPONSE_CODE_BAD_REQUEST in
  let writer :=
    HTTPResponseWriter.setStatusMessage writer RESPONSE_MESSAGE_BAD_REQUEST in
  let writer := HTTPResponseWriter.write writer BAD_REQUEST_HTML in
  send writer.

(** [HTTPServer::handleNotFoundRequest] *)
Definition handleNotFoundRequest (http_request : HTTPRequest)
    (tcp_conn : connection) : list event :=
  let writer := HTTPResponseWriter.create connection_finish in
  let writer :=
    HTTPResponseWriter.setStatusCode writer RESPONSE_CODE_NOT_FOUND in
  let writer :=
    HTTPResponseWriter.setStatusMessage writer RESPONSE_MESSAGE_NOT_FOUND in
  let writer := HTTPResponseWriter.write writer NOT_FOUND_HTML_START in
  let writer := HTTPResponseWriter.write writer (getResource http_request) in
  let writer := HTTPResponseWriter.write writer NOT_FOUND_HTML_FINISH in
  send writer.

(** [HTTPServer::handleServerError] *)
Definition handleServerError (http_request : HTTPRequest)
    (tcp_conn : connection) (error_msg : string) : list event :=
  let writer := HTTPResponseWriter.create connection_finish in
  let writer :=
    HTTPResponseWriter.setStatusCode writer RESPONSE_CODE_SERVER_ERROR in
  let writer :=
    HTTPResponseWriter.setStatusMessage writer RESPONSE_MESSAGE_SERVER_ERROR in
  let writer := HTTPResponseWriter.write writer SERVER_ERROR_HTML_START in
  let writer := HTTPResponseWriter.write writer error_msg in
  let writer := HTTPResponseWriter.write writer SERVER_ERROR_HTML_FINISH in
  send writer.

(** ** The responders that set more than a status and a body *)

(** Modelled from the spec: the status constants of [HTTPTypes] for the two
    responders below; section 4.9 of the spec gives the codes. *)
Definition RESPONSE_CODE_FORBIDDEN : Z := 403.
Definition RESPONSE_CODE_METHOD_NOT_ALLOWED : Z := 405.

Inductive reason_phrase_more :=
| RESPONSE_MESSAGE_FORBIDDEN
| RESPONSE_MESSAGE_METHOD_NOT_ALLOWED.

(** Modelled from the spec: the response writer again, now with the header
    map of its response, which [handleMethodNotAllowed] adds to; the spec
    (sections 3 and 4.5) gives a response a status, headers in the order of
    their emission, and a body. *)
Module HeaderWriter.

Record t := {
  status_code : Z;
  status_message : reason_phrase + reason_phrase_more;
  headers : list (string * string);
  content : string;
  finished : finished_handler
}.

Definition create (f : finished_handler) : t :=
  {| status_code := RESPONSE_CODE_OK;
     status_message := inl RESPONSE_MESSAGE_OK;
     headers := [];
     content := "";
     finished := f |}.

Definition setStatusCode (w : t) (n : Z) : t :=
  {| status_code := n;
     status_message := status_message w;
     headers := headers w;
     content := content w;
     finished := finished w |}.

Definition setStatusMessage (w : t) (msg : reason_phrase_more) : t :=
  {| status_code := status_code w;
     status_message := inr msg;
     headers := headers w;
     content := content w;
     finished := finished w |}.

(** [getResponse().addHeader(key, value)] *)
Definition addHeader (w : t) (key value : string) : t :=
  {| status_code := status_code w;
     status_message := status_message w;
     headers := headers w ++ [(key, value)];
     content := content w;
     finished := finished w |}.

(** [writeNoCopy(data)] and [writer << data] *)
Definition write (w : t) (data : string) : t :=
  {| status_code := status_code w;
     status_message := status_message w;
     headers := headers w;
     content := content w +:+ data;
     finished := finished w |}.

End HeaderWriter.

Definition FORBIDDEN_HTML_START : string :=
  "<html><head>" +:+ nl +:+
  "<title>403 Forbidden</title>" +:+ nl +:+
  "</head><body>" +:+ nl +:+
  "<h1>Forbidden</h1>" +:+ nl +:+
  "<p>User not authorized to access the requested URL ".

Definition FORBIDDEN_HTML_MIDDLE : string :=
  "</p><p><strong>" +:+ nl.

Definition FORBIDDEN_HTML_FINISH : string :=
  "</strong></p>" +:+ nl +:+
  "</body></html>" +:+ nl.

Definition NOT_ALLOWED_HTML_START : string :=
  "<html><head>" +:+ nl +:+
  "<title>405 Method Not Allowed</title>" +:+ nl +:+
  "</head><body>" +:+ nl +:+
  "<h1>Not Allowed</h1>" +:+ nl +:+
  "<p>The requested method ".

Definition NOT_ALLOWED_HTML_FINISH : string :=
  " is not allowed on this server.</p>" +:+ nl +:+
  "</body></html>" +:+ nl.

(** [HTTPServer::handleForbiddenRequest]: the writer as it is when [send()]
    is called on it. *)
Definition handleForbiddenRequest (http_request : HTTPRequest)
    (tcp_conn : connection) (error_msg : string) : HeaderWriter.t :=
  let writer := HeaderWriter.create connection_finish in
  let writer := HeaderWriter.setStatusCode writer RESPONSE_CODE_FORBIDDEN in
  let writer :=
    HeaderWriter.setStatusMessage writer RESPONSE_MESSAGE_FORBIDDEN in
  let writer := HeaderWriter.write writer FORBIDDEN_HTML_START in
  let writer := HeaderWriter.write writer (getResource http_request) in
  let writer := HeaderWriter.write writer FORBIDDEN_HTML_MIDDLE in
  let writer := HeaderWriter.write writer error_msg in
  let writer := HeaderWriter.write writer FORBIDDEN_HTML_FINISH in
  writer.

(** [HTTPServer::handleMethodNotAllowed]: the writer as it is when [send()]
    is called on it. *)
Definition handleMethodNotAllowed (http_request : HTTPRequest)
    (tcp_conn : connection) (allowed_methods : string) : HeaderWriter.t :=
  let writer := HeaderWriter.create connection_finish in
  let writer :=
    HeaderWriter.setStatusCode writer RESPONSE_CODE_METHOD_NOT_ALLOWED in
  let writer :=
    HeaderWriter.setStatusMessage writer RESPONSE_MESSAGE_METHOD_NOT_ALLOWED in
  let writer :=
    if negb (StdString.empty allowed_methods)
    then HeaderWriter.addHeader writer "Allow" allowed_methods
    else writer in
  let writer := HeaderWriter.write writer NOT_ALLOWED_HTML_START in
  let writer := HeaderWriter.write writer (getMethod http_request) in
  let writer := HeaderWriter.write writer NOT_ALLOWED_HTML_FINISH in
  writer.

(** ** The server *)

Record HTTPServer := {
  m_resources : list (string * RequestHandler);
  m_redirects : gmap string string;
  m_auth_ptr : option HTTPAuth;
  m_bad_request_handler : HTTPRequest -> connection -> list event;
  m_not_found_handler : HTTPRequest -> connection -> list event;
  m_server_error_handler : HTTPRequest -> connection -> string -> list event
}.

(** [HTTPServer::addRedirect]: [insert] keeps an entry that is already
    there. *)
Definition addRedirect (requested_resource new_resource : string)
    (m_redirects : gmap string string) : gmap string string :=
  let clean_requested_resource := stripTrailingSlash requested_resource in
  let clean_new_resource := stripTrailingSlash new_resource in
  match m_redirects !! clean_requested_resource with
  | Some _ => m_redirects
  | None => <[clean_requested_resource := clean_new_resource]> m_redirects
  end.

Definition MAX_REDIRECTS : Z := 10.

(** [++n] on an [unsigned int]. *)
Definition uint_incr (n : Z) : Z := (n + 1) mod 2 ^ 32.

Definition REDIRECTS_EXCEEDED_MSG : string :=
  "Maximum number of redirects (HTTPServer::MAX_REDIRECTS) exceeded for requested resource".

(** What [handleRequest] leaves behind: the request and the connection as
    they are when it returns (or throws), what it did in order, and the
    exception that leaves it, if any. *)
Record outcome := {
  out_request : HTTPRequest;
  out_conn : connection;
  out_trace : list event;
  out_thrown : option exn
}.

(** *** The redirection loop *)

(** The variables of the loop: the iterator [it] (as the entry it points
    to, [None] for [m_redirects.end()]), the counter, the local copy of the
    resource, the request, and the calls made so far. *)
Record redirect_state := {
  it : option string;
  num_redirects : Z;
  resource_requested : string;
  http_request : HTTPRequest;
  rewrites : list event
}.

Inductive loop_step :=
| LoopContinue (st : redirect_state)
    (** the body ran to its end *)
| LoopExit (st : redirect_state)
    (** [it == m_redirects.end()] *)
| LoopExceeded (st : redirect_state)
    (** [++num_redirects > MAX_REDIRECTS] *).

(** The loop test and one run of the body. *)
Definition redirect_step (redirects : gmap string string)
    (st : redirect_state) : loop_step :=
  match it st with
  | None => LoopExit st
  | Some second =>
      let n := uint_incr (num_redirects st) in
      if (MAX_REDIRECTS <? n)%Z then
        LoopExceeded {| it := it st;
                        num_redirects := n;
                        resource_requested := resource_requested st;
                        http_request := http_request st;
                        rewrites := rewrites st |}
      else
        LoopContinue {| it := redirects !! second;
                        num_redirects := n;
                        resource_requested := second;
                        http_request :=
                          changeResource (http_request st) second;
                        rewrites :=
                          rewrites st ++ [EvChangeResource second] |}
  end.

(** The [while] loop, run for at most [fuel] tests; [None] when the fuel
    does not suffice. *)
Fixpoint redirect_loop (fuel : nat) (redirects : gmap string string)
    (st : redirect_state) : option loop_step :=
  match fuel with
  | O => None
  | S fuel' =>
      match redirect_step redirects st with
      | LoopContinue st' => redirect_loop fuel' redirects st'
      | last => Some last
      end
  end.

(** The state on entry of the loop. *)
Definition redirect_init (redirects : gmap string string)
    (req : HTTPRequest) : redirect_state :=
  let resource_requested := stripTrailingSlash (getResource req) in
  {| it := redirects !! resource_requested;
     num_redirects := 0;
     resource_requested := resource_requested;
     http_request := req;
     rewrites := [] |}.

(** *** The dispatcher *)

Section Dispatch.
(** [boost::diagnostic_information], a function of the Boost library. *)
Context (diagnostic_information : exn -> string).

(** [catch (std::bad_alloc&)] and [catch (std::exception&)], in the order
    the handlers of the [try] block are tried. *)
Definition catches_bad_alloc (e : exn) : bool :=
  match e with bad_alloc => true | _ => false end.
Definition catches_std_exception (e : exn) : bool :=
  match e with bad_alloc | std_exception _ => true
          | non_std_exception => false end.

(** The [try] block around the handler call. *)
Definition invoke (srv : HTTPServer) (request_handler : RequestHandler)
    (req : HTTPRequest) (tcp_conn : connection)
    : list event * option exn :=
  match request_handler req tcp_conn with
  | None => ([EvHandler request_handler req], None)
  | Some e =>
      if catches_bad_alloc e then
        ([EvHandler request_handler req], Some e)
      else if catches_std_exception e then
        ([EvHandler request_handler req;
          EvServerError req (diagnostic_information e)]
         ++ m_server_error_handler srv req tcp_conn
              (diagnostic_information e),
         None)
      else ([EvHandler request_handler req], Some e)
  end.

(** The search for a handler and what follows it. *)
Definition lookup_and_invoke (srv : HTTPServer) (resource : string)
    (req : HTTPRequest) (tcp_conn : connection)
    : list event * option exn :=
  match findRequestHandler (m_resources srv) resource with
  | Some request_handler => invoke srv request_handler req tcp_conn
  | None =>
      ([EvNotFound req] ++ m_not_found_handler srv req tcp_conn, None)
  end.

(** The authentication gate and what follows it. *)
Definition authenticate_and_dispatch (srv : HTTPServer) (resource : string)
    (req : HTTPRequest) (tcp_conn : connection)
    : list event * option exn :=
  match m_auth_ptr srv with
  | Some auth =>
      if negb (auth req tcp_conn) then ([EvAuth req false], None)
      else
        let '(evs, thrown) := lookup_and_invoke srv resource req tcp_conn in
        (EvAuth req true :: evs, thrown)
  | None => lookup_and_invoke srv resource req tcp_conn
  end.

(** [HTTPServer::handleRequest]; [None] only when [fuel] does not suffice
    for the redirection loop. *)
Definition handleRequest (fuel : nat) (srv : HTTPServer)
    (req : HTTPRequest) (tcp_conn : connection) (ec : error_code)
    : option outcome :=
  if ec_is_set ec || negb (isValid req) then
    let tcp_conn' := set_lifecycle tcp_conn LIFECYCLE_CLOSE in
    if is_open tcp_conn' && is_parser_category (ec_category ec) then
      Some {| out_request := req;
              out_conn := tcp_conn';
              out_trace :=
                [EvSetLifecycle LIFECYCLE_CLOSE; EvBadRequest req]
                ++ m_bad_request_handler srv req tcp_conn';
              out_thrown := None |}
    else
      Some {| out_request := req;
              out_conn := tcp_conn';
              out_trace := [EvSetLifecycle LIFECYCLE_CLOSE; EvFinish];
              out_thrown := None |}
  else
    match redirect_loop fuel (m_redirects srv)
            (redirect_init (m_redirects srv) req) with
    | None => None
    | Some (LoopContinue _) => None
    | Some (LoopExceeded st) =>
        Some {| out_request := http_request st;
                out_conn := tcp_conn;
                out_trace :=
                  rewrites st
                  ++ [EvServerError (http_request st)
                        REDIRECTS_EXCEEDED_MSG]
                  ++ m_server_error_handler srv (http_request st) tcp_conn
                       REDIRECTS_EXCEEDED_MSG;
                out_thrown := None |}
    | Some (LoopExit st) =>
        let '(evs, thrown) :=
          authenticate_and_dispatch srv (resource_requested st)
            (http_request st) tcp_conn in
        Some {| out_request := http_request st;
                out_conn := tcp_conn;
                out_trace := rewrites st ++ evs;
                out_thrown := thrown |}
    end.

End Dispatch.

(** ** Notions used to state the properties *)

(** [key] matches [resource] at a path-segment boundary: the resource is
    the key, or the key followed by ['/'] and anything. *)
Definition segment_match (key resource : string) : Prop :=
  resource = key \/ exists rest, resource = key +:+ "/" +:+ rest.

(** The lookup as section 4.6 of the spec words it: among the keys not
    greater than the query, greatest first, the first key that is empty, or
    that the resource starts with and that ends at a boundary. *)
Definition spec_accepts (resource key : string) : bool :=
  String.eqb key ""
  || (String.prefix key resource
      && (Nat.eqb (String.length resource) (String.length key)
          || match String.get (String.length key) resource with
             | Some c => Ascii.eqb c "/"
             | None => false
             end)).

Definition spec_find {V : Type} (m : list (string * V)) (resource : string)
    : option V :=
  let below := filter (λ e, String.leb e.1 resource = true) m in
  (λ x, x.2.2) <$>
    list_find (λ e, spec_accepts resource e.1 = true) (reverse below).

(** The targets of [n] successive redirections starting at [r]; [None] when
    the table has no entry at one of these steps. *)
Fixpoint redirect_path (redirects : gmap string string) (n : nat)
    (r : string) : option (list string) :=
  match n with
  | O => Some []
  | S n' =>
      match redirects !! r with
      | None => None
      | Some target => (target ::.) <$> redirect_path redirects n' target
      end
  end.

(** The request [req] resolves along the chain [l]: the successive targets
    from the stripped resource are [l], there are at most [MAX_REDIRECTS] of
    them, and the last one has no entry in the table. *)
Definition resolves (redirects : gmap string string) (req : HTTPRequest)
    (l : list string) : Prop :=
  let start := stripTrailingSlash (getResource req) in
  redirect_path redirects (length l) start = Some l
  /\ (Z.of_nat (length l) <= MAX_REDIRECTS)%Z
  /\ redirects !! (List.last l start) = None.

(** The request as the loop leaves it after the rewrites [l]. *)
Definition rewritten (req : HTTPRequest) (l : list string) : HTTPRequest :=
  foldl changeResource req l.

(** The state of the loop after the rewrites [l] made from the state
    [st]. *)
Definition advance (redirects : gmap string string) (st : redirect_state)
    (l : list string) : redirect_state :=
  {| it := redirects !! List.last l (resource_requested st);
     num_redirects := num_redirects st + Z.of_nat (length l);
     resource_requested := List.last l (resource_requested st);
     http_request := rewritten (http_request st) l;
     rewrites := rewrites st ++ (EvChangeResource <$> l) |}.

(** The state of the loop after [k] complete runs of its body; [None] when
    the loop is left before. *)
Fixpoint iterate (redirects : gmap string string) (k : nat)
    (st : redirect_state) : option redirect_state :=
  match k with
  | O => Some st
  | S k' =>
      match redirect_step redirects st with
      | LoopContinue st' => iterate redirects k' st'
      | _ => None
      end
  end.

(** No authenticator is registered, or the one registered lets the request
    through. *)
Definition auth_passes (srv : HTTPServer) (req : HTTPRequest)
    (tcp_conn : connection) : Prop :=
  match m_auth_ptr srv with
  | Some auth => auth req tcp_conn = true
  | None => True
  end.

(** The events the authentication gate leaves in the trace when it lets the
    request through. *)
Definition auth_events (srv : HTTPServer) (req : HTTPRequest) : list event :=
  match m_auth_ptr srv with
  | Some _ => [EvAuth req true]
  | None => []
  end.

(** How many responses a trace puts on the wire, and how many times the
    dispatcher itself calls [finish()] in it. *)
Definition is_send (e : event) : bool :=
  match e with EvSend _ _ => true | _ => false end.
Definition is_finish (e : event) : bool :=
  match e with EvFinish => true | _ => false end.
Definition sends (trace : list event) : nat :=
  length (List.filter is_send trace).
Definition finishes (trace : list event) : nat :=
  length (List.filter is_finish trace).


(** How many calls of [changeResource] a trace records. *)
Definition is_change_resource (e : event) : bool :=
  match e with EvChangeResource _ => true | _ => false end.
Definition rewrites_in (trace : list event) : nat :=
  length (List.filter is_change_resource trace).

(** The error code of a read that went well. *)
Definition no_error : error_code :=
  {| ec_value := 0; ec_category := system_category |}.

(** Enough fuel for the redirection loop. *)
Definition redirect_fuel : nat := S (Z.to_nat MAX_REDIRECTS).

(** A server with the default responders. *)
Definition make_server (resources : list (string * RequestHandler))
    (redirects : gmap string string) (auth : option HTTPAuth) : HTTPServer :=
  {| m_resources := resources;
     m_redirects := redirects;
     m_auth_ptr := auth;
     m_bad_request_handler := handleBadRequest;
     m_not_found_handler := handleNotFoundRequest;
     m_server_error_handler := handleServerError |}.

(** ** Sample data *)

Module Samples.

Definition get (resource : string) : HTTPRequest :=
  {| m_method := "GET";
     m_resource := resource;
     m_original_resource := resource;
     m_is_valid := true |}.

Definition open_conn : connection :=
  {| m_lifecycle := LIFECYCLE_KEEPALIVE; m_is_open := true |}.

Definition ok_handler : RequestHandler := fun _ _ => None.
Definition boom_handler : RequestHandler :=
  fun _ _ => Some (std_exception "kaboom").
Definition oom_handler : RequestHandler := fun _ _ => Some bad_alloc.

(** Scenario 3 of the spec: [/x -> /y] and [/y -> /x]. *)
Definition redirect_cycle : gmap string string :=
  addRedirect "/y" "/x" (addRedirect "/x" "/y" ∅).

(** A resource redirected to itself. *)
Definition redirect_self : gmap string string := addRedirect "/s" "/s" ∅.

(** A chain of two redirections: [/a -> /b -> /c]. *)
Definition redirect_chain : gmap string string :=
  addRedirect "/b" "/c" (addRedirect "/a" "/b" ∅).

(** A redirection that leads into the cycle: [/s -> /x -> /y -> /x]. *)
Definition redirect_into_cycle : gmap string string :=
  addRedirect "/s" "/x" redirect_cycle.

(** An authenticator that refuses every request, and a handler that throws
    an object that is no [std::exception]. *)
Definition deny_auth : HTTPAuth := fun _ _ => false.
Definition throw_handler : RequestHandler :=
  fun _ _ => Some non_std_exception.

(** Scenario 2 of the spec: handlers at the empty key, [/a] and [/a/b]. *)
Definition three_resources : list (string * nat) :=
  addResource "/a/b" 2 (addResource "/a" 1 (addResource "" 0 [])).

Definition diag (e : exn) : string :=
  match e with
  | bad_alloc => "std::bad_alloc"
  | std_exception what => "std::exception::what: " +:+ what
  | non_std_exception => "Unknown exception."
  end.

Definition parse_error : error_code :=
  {| ec_value := 1; ec_category := parser_error_category |}.

End Samples.

Example find_longest_1 :
  findRequestHandler Samples.three_resources "/a/b/c" = Some 2.
Proof. reflexivity. Qed.

Example find_longest_2 :
  findRequestHandler Samples.three_resources "/a/bb" = Some 1.
Proof. reflexivity. Qed.

Example redirect_cycle_exceeds :
  out_trace <$> handleRequest Samples.diag redirect_fuel
    (make_server [] Samples.redirect_cycle None) (Samples.get "/x")
    Samples.open_conn no_error
  = Some (((λ s, EvChangeResource s) <$>
            ["/y"; "/x"; "/y"; "/x"; "/y"; "/x"; "/y"; "/x"; "/y"; "/x"])
          ++ [EvServerError (changeResource (Samples.get "/x") "/x")
                REDIRECTS_EXCEEDED_MSG]
          ++ handleServerError (changeResource (Samples.get "/x") "/x")
               Samples.open_conn REDIRECTS_EXCEEDED_MSG).
Proof. vm_compute. reflexivity. Qed.

(** * Properties *)

(** ** Facts on strings and their order *)

#[local] Arguments String.append !_ _ / : simpl nomatch.

Section StringFacts.
Implicit Types (s t u : string) (c : ascii).

Lemma ascii_compare_refl c : Ascii.compare c c = Eq.
Proof. unfold Ascii.compare. apply N.compare_refl. Qed.

Lemma ascii_compare_lt_trans c1 c2 c3 :
  Ascii.compare c1 c2 = Lt -> Ascii.compare c2 c3 = Lt ->
  Ascii.compare c1 c3 = Lt.
Proof.
  unfold Ascii.compare. rewrite !N.compare_lt_iff. lia.
Qed.

Lemma string_compare_refl s : String.compare s s = Eq.
Proof.
  induction s as [|c s IH]; simpl; [done|].
  by rewrite ascii_compare_refl.
Qed.

Lemma string_compare_eq s t : String.compare s t = Eq <-> s = t.
Proof.
  split; [apply String.compare_eq_iff|].
  intros ->. apply string_compare_refl.
Qed.

Lemma string_compare_lt_trans s t u :
  String.compare s t = Lt -> String.compare t u = Lt ->
  String.compare s u = Lt.
Proof.
  revert t u. induction s as [|c1 s IH]; intros [|c2 t] [|c3 u]; simpl;
    try done.
  destruct (Ascii.compare c1 c2) eqn:H12; try done;
    destruct (Ascii.compare c2 c3) eqn:H23; try done; intros Hst Htu.
  - apply Ascii.compare_eq_iff in H12, H23. subst.
    rewrite ascii_compare_refl. eauto.
  - apply Ascii.compare_eq_iff in H12. subst. by rewrite H23.
  - apply Ascii.compare_eq_iff in H23. subst. by rewrite H12.
  - by rewrite (ascii_compare_lt_trans _ _ _ H12 H23).
Qed.

Lemma compare_Lt_lt s t : String.compare s t = Lt -> StdString.lt s t = true.
Proof. unfold StdString.lt, String.ltb. by intros ->. Qed.

Lemma compare_Gt_lt s t : String.compare s t = Gt -> StdString.lt t s = true.
Proof.
  intros H. apply compare_Lt_lt. by rewrite String.compare_antisym, H.
Qed.

Lemma lt_irrefl s : StdString.lt s s = false.
Proof. unfold StdString.lt, String.ltb. by rewrite string_compare_refl. Qed.

Lemma lt_trans s t u :
  StdString.lt s t = true -> StdString.lt t u = true ->
  StdString.lt s u = true.
Proof.
  unfold StdString.lt, String.ltb.
  destruct (String.compare s t) eqn:Hst; try done.
  destruct (String.compare t u) eqn:Htu; try done.
  by rewrite (string_compare_lt_trans _ _ _ Hst Htu).
Qed.

Lemma lt_asym s t :
  StdString.lt s t = true -> StdString.lt t s = false.
Proof.
  intros H. destruct (StdString.lt t s) eqn:H'; [|done].
  pose proof (lt_trans _ _ _ H H') as Hss. by rewrite lt_irrefl in Hss.
Qed.

Lemma lt_empty_r s : StdString.lt s "" = false.
Proof. by destruct s. Qed.

(** [leb] is the negation of the reversed [lt]. *)
Lemma leb_not_lt s t : String.leb s t = negb (StdString.lt t s).
Proof.
  unfold String.leb, StdString.lt, String.ltb.
  rewrite (String.compare_antisym t s).
  by destruct (String.compare s t).
Qed.

(** A string is never greater than one of its extensions. *)
Lemma lt_app_l s t : StdString.lt (s +:+ t) s = false.
Proof.
  unfold StdString.lt, String.ltb.
  induction s as [|c s IH]; simpl.
  - by destruct t.
  - by rewrite ascii_compare_refl.
Qed.

Lemma app_length s t :
  String.length (s +:+ t) = (String.length s + String.length t)%nat.
Proof. induction s as [|c s IH]; simpl; [done|]. by rewrite IH. Qed.

Lemma app_assoc s t u : (s +:+ t) +:+ u = s +:+ t +:+ u.
Proof. induction s as [|c s IH]; simpl; [done|]. by rewrite IH. Qed.

Lemma app_empty_r s : s +:+ "" = s.
Proof. induction s as [|c s IH]; simpl; [done|]. by rewrite IH. Qed.

(** Two prefixes of one string: the shorter is a prefix of the longer. *)
Lemma prefixes_comparable s s' t t' :
  s +:+ t = s' +:+ t' -> (String.length s <= String.length s')%nat ->
  exists x, s' = s +:+ x.
Proof.
  revert s'. induction s as [|c s IH]; intros s' Heq Hlen; simpl in *.
  - by exists s'.
  - destruct s' as [|c' s']; simpl in *; [lia|].
    injection Heq as -> Heq.
    destruct (IH s' Heq) as [x ->]; [lia|]. by exists x.
Qed.

(** [substring 0 n] of an extension. *)
Lemma substring_app s t : String.substring 0 (String.length s) (s +:+ t) = s.
Proof. induction s as [|c s IH]; simpl; [by destruct t|]. by rewrite IH. Qed.

Lemma substring_prefix n s :
  exists rest, s = String.substring 0 n s +:+ rest.
Proof.
  revert s. induction n as [|n IH]; intros s.
  - exists s. by destruct s.
  - destruct s as [|c s]; simpl; [by exists ""|].
    destruct (IH s) as [rest Hrest]. exists rest. by rewrite <- Hrest.
Qed.

(** [resource.compare(0, key.size(), key) == 0] says that the resource
    starts with the key. *)
Lemma compare_prefix resource key :
  StdString.compare resource (StdString.size key) key = Eq
  <-> exists rest, resource = key +:+ rest.
Proof.
  unfold StdString.compare, StdString.size. rewrite string_compare_eq.
  split.
  - intros H. destruct (substring_prefix (String.length key) resource)
      as [rest Hrest]. exists rest. by rewrite H in Hrest.
  - intros [rest ->]. apply substring_app.
Qed.

Lemma prefix_app s t : String.prefix s (s +:+ t) = true.
Proof.
  induction s as [|c s IH]; simpl; [by destruct t|].
  destruct (ascii_dec c c); [done|congruence].
Qed.

Lemma prefix_inv s t :
  String.prefix s t = true -> exists rest, t = s +:+ rest.
Proof.
  revert t. induction s as [|c s IH]; intros t.
  - intros _. by exists t.
  - destruct t as [|c' t]; simpl; [done|].
    destruct (ascii_dec c c') as [->|]; [|done].
    intros [rest ->]%IH. by exists rest.
Qed.

Lemma get_app_length s t :
  String.get (String.length s) (s +:+ t) = String.get 0 t.
Proof. induction s as [|c s IH]; simpl; done. Qed.

Lemma at_app_length s t :
  StdString.at_ (s +:+ t) (String.length s) = StdString.at_ t 0.
Proof. unfold StdString.at_. by rewrite get_app_length. Qed.

End StringFacts.

(** ** The test on one registry entry *)

Section EntryFacts.
Implicit Types (resource key : string).

Lemma segment_match_prefix key resource :
  segment_match key resource -> exists rest, resource = key +:+ rest.
Proof.
  intros [->|[rest ->]].
  - exists "". by rewrite app_empty_r.
  - by eexists.
Qed.

(** The two nested tests of the code accept exactly the keys that match
    at a segment boundary. *)
Lemma entry_matches_spec resource key :
  entry_matches resource key = true <-> segment_match key resource.
Proof.
  unfold entry_matches. rewrite andb_true_iff, !orb_true_iff. split.
  - intros [Hpre Hend].
    assert (exists rest, resource = key +:+ rest) as [rest ->].
    { destruct Hpre as [Hempty|Hcmp].
      - destruct key; [|done]. by exists resource.
      - apply compare_prefix.
        by destruct (StdString.compare resource (StdString.size key) key). }
    unfold StdString.size in Hend.
    rewrite app_length, at_app_length in Hend.
    destruct rest as [|c rest].
    + left. apply app_empty_r.
    + right. exists rest. destruct Hend as [Hlen|Hc].
      * apply Nat.eqb_eq in Hlen. simpl in Hlen. lia.
      * unfold StdString.at_ in Hc. simpl in Hc.
        by apply Ascii.eqb_eq in Hc as ->.
  - intros Hm. split.
    + right. destruct (segment_match_prefix _ _ Hm) as [rest Hrest].
      assert (StdString.compare resource (StdString.size key) key = Eq)
        as ->; [|done].
      apply compare_prefix. by exists rest.
    + destruct Hm as [->|[rest ->]].
      * left. apply Nat.eqb_refl.
      * right. unfold StdString.size. by rewrite at_app_length.
Qed.

(** A matching key is not greater than the resource. *)
Lemma segment_match_le key resource :
  segment_match key resource -> String.leb key resource = true.
Proof.
  intros [rest ->]%segment_match_prefix.
  by rewrite leb_not_lt, lt_app_l.
Qed.

(** Among the keys that match one resource, the order of the map is the
    order of the lengths. *)
Lemma segment_match_lt_length key key' resource :
  segment_match key resource -> segment_match key' resource ->
  StdString.lt key' key = true ->
  (String.length key' < String.length key)%nat.
Proof.
  intros [rest Hrest]%segment_match_prefix
    [rest' Hrest']%segment_match_prefix Hlt.
  destruct (decide (String.length key <= String.length key')%nat)
    as [Hle|]; [|lia].
  destruct (prefixes_comparable key key' rest rest') as [x ->];
    [congruence|done|].
  by rewrite lt_app_l in Hlt.
Qed.

(** The rule as the spec words it is the rule of the code, but for the
    empty key, which the spec accepts outright. *)
Lemma spec_accepts_entry_matches resource key :
  spec_accepts resource key
  = StdString.empty key || entry_matches resource key.
Proof.
  unfold spec_accepts. destruct key as [|c key]; [done|].
  change (String.eqb (String c key) "") with false.
  rewrite !orb_false_l.
  destruct (entry_matches resource (String c key)) eqn:Hcode.
  - apply entry_matches_spec in Hcode.
    destruct (segment_match_prefix _ _ Hcode) as [rest Hrest].
    rewrite Hrest at 1. rewrite prefix_app, andb_true_l.
    destruct Hcode as [->|[rest' ->]].
    + by rewrite Nat.eqb_refl.
    + by rewrite get_app_length, orb_true_r.
  - destruct (String.prefix (String c key) resource) eqn:Hpre; [|done].
    rewrite andb_true_l. apply not_true_iff_false.
    rewrite orb_true_iff. intros Hend.
    apply prefix_inv in Hpre as [rest ->].
    apply not_true_iff_false in Hcode. apply Hcode, entry_matches_spec.
    rewrite app_length, get_app_length in Hend.
    destruct Hend as [Hlen|Hc].
    + apply Nat.eqb_eq in Hlen. left.
      destruct rest; [apply app_empty_r|simpl in Hlen; lia].
    + destruct rest as [|c' rest]; [done|]. simpl in Hc.
      apply Ascii.eqb_eq in Hc as ->. right. by exists rest.
Qed.

End EntryFacts.

(** ** The ordered map *)

Section MapFacts.
Context {V : Type}.
Implicit Types (m : list (string * V)) (k : string) (v : V).

Lemma sorted_cons_inv k v m :
  StdMap.sorted ((k, v) :: m) ->
  Forall (λ e, StdString.lt k e.1 = true) m /\ StdMap.sorted m.
Proof. unfold StdMap.sorted. by rewrite StronglySorted_cons. Qed.

Lemma sorted_take n m : StdMap.sorted m -> StdMap.sorted (take n m).
Proof.
  unfold StdMap.sorted. intros H. rewrite <- (take_drop n m) in H.
  by apply StronglySorted_app_1_l in H.
Qed.

(** The keys of a sorted map are unique. *)
Lemma sorted_unique k v v' m :
  StdMap.sorted m -> (k, v) ∈ m -> (k, v') ∈ m -> v = v'.
Proof.
  induction m as [|[k0 v0] m IH]; intros Hs Hin Hin'.
  - by apply elem_of_nil in Hin.
  - apply sorted_cons_inv in Hs as [Hall Hs].
    rewrite Forall_forall in Hall.
    apply elem_of_cons in Hin as [Heq|Hin];
      apply elem_of_cons in Hin' as [Heq'|Hin'].
    + congruence.
    + injection Heq as -> ->. apply Hall in Hin'. simpl in Hin'.
      by rewrite lt_irrefl in Hin'.
    + injection Heq' as -> ->. apply Hall in Hin. simpl in Hin.
      by rewrite lt_irrefl in Hin.
    + by apply IH.
Qed.

Lemma upper_bound_le k m : (StdMap.upper_bound k m <= length m)%nat.
Proof.
  induction m as [|[k' v'] m IH]; simpl; [done|].
  destruct (StdString.lt k k'); simpl; lia.
Qed.

Lemma filter_none (P : string * V -> Prop) `{!forall e, Decision (P e)} m :
  Forall (λ e, ¬ P e) m -> filter P m = [].
Proof.
  induction 1 as [|e l He _ IH]; [done|].
  by rewrite filter_cons_False.
Qed.

(** The entries before [upper_bound] are those whose key is not greater
    than the bound. *)
Lemma take_upper_bound k m :
  StdMap.sorted m ->
  take (StdMap.upper_bound k m) m
  = filter (λ e, String.leb e.1 k = true) m.
Proof.
  induction m as [|[k' v'] m IH]; intros Hs; [done|].
  apply sorted_cons_inv in Hs as [Hall Hs]. simpl.
  destruct (StdString.lt k k') eqn:Hlt.
  - simpl. symmetry. apply filter_none.
    apply Forall_cons. split.
    + simpl. rewrite leb_not_lt, Hlt. done.
    + eapply Forall_impl; [exact Hall|]. intros [k'' v''] Hk''. simpl in *.
      rewrite leb_not_lt, (lt_trans _ _ _ Hlt Hk''). done.
  - simpl. rewrite filter_cons_True.
    + by rewrite IH.
    + simpl. by rewrite leb_not_lt, Hlt.
Qed.

(** [insert] keeps the invariant. *)
Lemma sorted_insert k v m :
  StdMap.sorted m -> StdMap.sorted (StdMap.insert k v m).
Proof.
  induction m as [|[k' v'] m IH]; intros Hs; simpl.
  - apply StronglySorted_cons. split; constructor.
  - destruct (String.compare k k') eqn:Hcmp; [done| |].
    + apply StronglySorted_cons. split; [|done].
      apply compare_Lt_lt in Hcmp as Hlt.
      apply sorted_cons_inv in Hs as [Hall _].
      apply Forall_cons. split; [done|].
      eapply Forall_impl; [exact Hall|]. intros e He. simpl in *.
      by eapply lt_trans.
    + apply compare_Gt_lt in Hcmp as Hlt.
      apply sorted_cons_inv in Hs as [Hall Hs].
      apply StronglySorted_cons. split; [|by apply IH].
      clear IH Hs. induction m as [|[k'' v''] m IHm]; simpl.
      * by repeat constructor.
      * apply Forall_cons in Hall as [Hk'' Hall].
        destruct (String.compare k k''); repeat constructor; auto.
Qed.

(** [erase] keeps the invariant. *)
Lemma sorted_erase k m : StdMap.sorted m -> StdMap.sorted (StdMap.erase k m).
Proof.
  induction m as [|[k' v'] m IH]; intros Hs; simpl; [done|].
  apply sorted_cons_inv in Hs as [Hall Hs].
  destruct (String.eqb k k'); [by apply IH|].
  apply StronglySorted_cons. split; [|by apply IH].
  clear IH Hs. induction Hall as [|[k'' v''] m Hk'' _ IHm]; simpl.
  - constructor.
  - destruct (String.eqb k k''); [done|]. by constructor.
Qed.

(** A second [insert] under the same key changes nothing. *)
Lemma insert_insert k v v' m :
  StdMap.insert k v' (StdMap.insert k v m) = StdMap.insert k v m.
Proof.
  induction m as [|[k0 v0] m IH]; simpl.
  - by rewrite string_compare_refl.
  - destruct (String.compare k k0) eqn:Hcmp; simpl.
    + by rewrite Hcmp.
    + by rewrite string_compare_refl.
    + by rewrite Hcmp, IH.
Qed.

Lemma find_Some_elem_of k v m : StdMap.find k m = Some v -> (k, v) ∈ m.
Proof.
  induction m as [|[k0 v0] m IH]; simpl; [done|].
  destruct (String.eqb k k0) eqn:Heq.
  - apply String.eqb_eq in Heq as ->. intros [= ->]. apply list_elem_of_here.
  - intros H. apply list_elem_of_further. auto.
Qed.

Lemma insert_mono e k v m : e ∈ m -> e ∈ StdMap.insert k v m.
Proof.
  induction m as [|[k0 v0] m IH]; simpl; [by intros ?%elem_of_nil|].
  intros He. destruct (String.compare k k0); [done| |].
  - by apply list_elem_of_further.
  - apply elem_of_cons in He as [->|He].
    + apply list_elem_of_here.
    + apply list_elem_of_further. auto.
Qed.

Lemma insert_new k v m :
  StdMap.find k m = None -> (k, v) ∈ StdMap.insert k v m.
Proof.
  induction m as [|[k0 v0] m IH]; simpl; [intros _; apply list_elem_of_here|].
  destruct (String.eqb k k0) eqn:Heq; [done|]. intros Hnone.
  destruct (String.compare k k0) eqn:Hcmp.
  - apply string_compare_eq in Hcmp. apply String.eqb_neq in Heq. done.
  - apply list_elem_of_here.
  - apply list_elem_of_further. auto.
Qed.

(** Where [insert] leaves the key: with the value it had, or else with
    the new one. *)
Lemma elem_of_insert k v m :
  (k, default v (StdMap.find k m)) ∈ StdMap.insert k v m.
Proof.
  destruct (StdMap.find k m) as [v0|] eqn:Hfind; simpl.
  - by apply insert_mono, find_Some_elem_of.
  - by apply insert_new.
Qed.

(** A second [erase] of the same key changes nothing. *)
Lemma erase_erase k m : StdMap.erase k (StdMap.erase k m) = StdMap.erase k m.
Proof.
  induction m as [|[k0 v0] m IH]; simpl; [done|].
  destruct (String.eqb k k0) eqn:Heq; [done|].
  simpl. by rewrite Heq, IH.
Qed.

End MapFacts.

(** ** The lookup *)

Section LookupFacts.
Context {V : Type}.
Implicit Types (m : list (string * V)) (resource key : string).

(** The descending walk from position [i] is a search for the first
    accepted entry in the entries before [i], last first. *)
Lemma walk_down_list_find resource m i :
  (i <= length m)%nat ->
  walk_down resource m i
  = (λ x, x.2.2) <$>
      list_find (λ e, entry_matches resource e.1 = true)
        (reverse (take i m)).
Proof.
  induction i as [|j IH]; intros Hi; [done|].
  destruct (lookup_lt_is_Some_2 m j) as [[key h] Hj]; [lia|].
  simpl walk_down. rewrite Hj, (take_S_r _ _ _ Hj), reverse_snoc.
  cbn [list_find].
  destruct (decide (entry_matches resource (key, h).1 = true)) as [Hacc|Hacc];
    simpl in Hacc.
  - by rewrite Hacc.
  - apply not_true_is_false in Hacc. rewrite Hacc, IH by lia.
    by destruct (list_find _ (reverse (take j m))) as [[? [? ?]]|].
Qed.

(** The lookup of the code, on a sorted registry: the first accepted key
    among those not greater than the resource, greatest first. *)
Lemma findRequestHandler_list_find m resource :
  StdMap.sorted m ->
  findRequestHandler m resource
  = (λ x, x.2.2) <$>
      list_find (λ e, entry_matches resource e.1 = true)
        (reverse (filter (λ e, String.leb e.1 resource = true) m)).
Proof.
  intros Hs. rewrite <- take_upper_bound by done.
  rewrite <- walk_down_list_find by apply upper_bound_le.
  by destruct m.
Qed.

(** In a sorted list searched from its end, the entry found is the
    greatest accepted one. *)
Lemma list_find_reverse_greatest (P : string * V -> Prop)
    `{!forall e, Decision (P e)} m i x :
  StdMap.sorted m ->
  list_find P (reverse m) = Some (i, x) ->
  x ∈ m /\ P x /\
  forall y, y ∈ m -> P y -> y = x \/ StdString.lt y.1 x.1 = true.
Proof.
  revert i. induction m as [|a m IH] using rev_ind; intros i Hs; [done|].
  rewrite reverse_snoc. cbn [list_find].
  apply StronglySorted_app in Hs as (Hlt & Hs & _).
  destruct (decide (P a)) as [Ha|Ha].
  - intros [= <- <-].
    split_and!; [apply elem_of_app; right; apply list_elem_of_here|done|].
    intros y [Hy| ->%list_elem_of_singleton]%elem_of_app _; [|by left].
    right. apply Hlt; [done|apply list_elem_of_here].
  - intros Hfind. apply fmap_Some in Hfind as ([i' x'] & Hfind & [= -> ->]).
    destruct (IH _ Hs Hfind) as (Hx & HPx & Hmax).
    split_and!; [apply elem_of_app; by left|done|].
    intros y [Hy| ->%list_elem_of_singleton]%elem_of_app HPy; [auto|done].
Qed.

(** The lookup succeeds as soon as one key matches, and it returns the
    entry of the longest matching key. *)
Lemma findRequestHandler_longest m resource key0 h0 :
  StdMap.sorted m -> (key0, h0) ∈ m -> segment_match key0 resource ->
  exists key h,
    (key, h) ∈ m /\ segment_match key resource
    /\ findRequestHandler m resource = Some h
    /\ forall key' h', (key', h') ∈ m -> segment_match key' resource ->
         (String.length key' <= String.length key)%nat.
Proof.
  intros Hs Hin0 Hm0. rewrite findRequestHandler_list_find by done.
  rewrite <- take_upper_bound by done.
  set (below := take (StdMap.upper_bound resource m) m).
  assert (forall e, e ∈ m -> segment_match e.1 resource -> e ∈ below)
    as Hbelow.
  { intros e He Hme. unfold below. rewrite take_upper_bound by done.
    apply list_elem_of_filter. split; [|done]. by apply segment_match_le. }
  destruct (list_find_elem_of (λ e, entry_matches resource e.1 = true)
              (reverse below) (key0, h0)) as [[i [key h]] Hfind].
  { apply elem_of_reverse. by apply Hbelow. }
  { by apply entry_matches_spec. }
  destruct (list_find_reverse_greatest _ below i (key, h)
              (sorted_take _ _ Hs) Hfind) as (Hin & Hacc & Hmax).
  apply entry_matches_spec in Hacc. simpl in Hacc.
  exists key, h. rewrite Hfind. split_and!; [|done|done|].
  - by apply elem_of_take in Hin as (j & ?%list_elem_of_lookup_2 & _).
  - intros key' h' Hin' Hm'.
    destruct (Hmax (key', h')) as [[= -> ->]|Hlt]; [by apply Hbelow| |done|].
    + by apply entry_matches_spec.
    + simpl in Hlt.
      pose proof (segment_match_lt_length _ _ _ Hacc Hm' Hlt). lia.
Qed.

(** Looking up a registered key itself gives its own entry. *)
Lemma findRequestHandler_exact m key h :
  StdMap.sorted m -> (key, h) ∈ m -> findRequestHandler m key = Some h.
Proof.
  intros Hs Hin.
  destruct (findRequestHandler_longest m key key h Hs Hin)
    as (key1 & h1 & Hin1 & Hm1 & -> & Hmax); [by left|].
  pose proof (Hmax key h Hin (or_introl eq_refl)) as Hlen.
  destruct (segment_match_prefix _ _ Hm1) as [rest Hrest].
  assert (rest = "") as ->.
  { rewrite Hrest, app_length in Hlen.
    destruct rest; [done|simpl in Hlen; lia]. }
  rewrite app_empty_r in Hrest. subst key1.
  f_equal. by eapply sorted_unique.
Qed.

(** Whenever some key matches, the walk with the rule of the spec and the
    walk of the code stop at the same entry. *)
Lemma spec_find_agrees m resource key0 h0 :
  StdMap.sorted m -> (key0, h0) ∈ m -> segment_match key0 resource ->
  spec_find m resource = findRequestHandler m resource.
Proof.
  intros Hs Hin0 Hm0. rewrite findRequestHandler_list_find by done.
  unfold spec_find. f_equal.
  assert (exists e, e ∈ filter (λ e, String.leb e.1 resource = true) m
                    /\ entry_matches resource e.1 = true) as Hex.
  { exists (key0, h0). split; [|by apply entry_matches_spec].
    apply list_elem_of_filter. split; [|done]. by apply segment_match_le. }
  assert (StdMap.sorted (filter (λ e, String.leb e.1 resource = true) m))
    as Hsf.
  { rewrite <- take_upper_bound by done. by apply sorted_take. }
  revert Hex Hsf.
  generalize (filter (λ e, String.leb e.1 resource = true) m).
  clear. intros l. induction l as [|[key h] l IH] using rev_ind;
    intros Hex Hsl; [done|].
  rewrite reverse_snoc. cbn [list_find]. simpl.
  rewrite spec_accepts_entry_matches.
  apply StronglySorted_app in Hsl as (Hlt & Hsl & _).
  destruct key as [|c key]; simpl.
  - (* the empty key is the least one: nothing comes before it *)
    assert (l = []) as ->.
    { destruct l as [|e l] using rev_ind; [done|].
      specialize (Hlt e (EmptyString, h)).
      unfold StdMap.key_lt in Hlt. simpl in Hlt.
      rewrite lt_empty_r in Hlt.
      exfalso. apply diff_false_true, Hlt.
      - apply elem_of_app. right. apply list_elem_of_here.
      - apply list_elem_of_here. }
    destruct Hex as (e & ->%list_elem_of_singleton & Hacc).
    simpl in Hacc. rewrite Hacc. by rewrite !decide_True.
  - destruct (entry_matches resource (String c key)) eqn:Hacc.
    + by rewrite !decide_True.
    + rewrite !decide_False by done.
      rewrite IH; [done| |done].
      destruct Hex as (e & [He| ->%list_elem_of_singleton]%elem_of_app & He');
        [by exists e|]. simpl in He'. congruence.
Qed.

End LookupFacts.

(** ** The registry: its invariant *)

(** Every registry built from the empty one by [addResource] and
    [removeResource] is sorted. *)
Lemma registry_sorted_nil {V : Type} : StdMap.sorted (@nil (string * V)).
Proof. constructor. Qed.

Lemma addResource_sorted {V : Type} (m : list (string * V)) resource h :
  StdMap.sorted m -> StdMap.sorted (addResource resource h m).
Proof. apply sorted_insert. Qed.

Lemma removeResource_sorted {V : Type} (m : list (string * V)) resource :
  StdMap.sorted m -> StdMap.sorted (removeResource resource m).
Proof. apply sorted_erase. Qed.

(** ** The registry: what the lookup returns *)

(** A handler that the lookup returns is registered under a key that
    matches the resource. *)
Lemma findRequestHandler_Some_inv {V : Type} (m : list (string * V))
    (resource : string) (h : V) :
  StdMap.sorted m -> findRequestHandler m resource = Some h ->
  exists key, (key, h) ∈ m /\ segment_match key resource.
Proof.
  intros Hs. rewrite findRequestHandler_list_find by done.
  intros ([i [key h']] & Hfind & [= <-])%fmap_Some.
  apply list_find_Some in Hfind as (Hi & Hacc & _).
  apply list_elem_of_lookup_2, elem_of_reverse, list_elem_of_filter in Hi
    as [_ Hin].
  exists key. split; [done|]. by apply entry_matches_spec.
Qed.

(** C1: for every registry and resource, if some registered key is the
    resource itself or is followed by ['/'] in it, [findRequestHandler]
    succeeds and returns the handler stored under the longest such key; the
    walk that starts at the greatest key not above the resource, goes down,
    and stops at the first key that is empty or that the resource starts
    with up to a boundary, returns that same handler. *)
Theorem findRequestHandler_longest_prefix {V : Type}
    (m : list (string * V)) (resource : string) :
  StdMap.sorted m ->
  (exists key h, (key, h) ∈ m /\ segment_match key resource) ->
  exists key h,
    (key, h) ∈ m
    /\ segment_match key resource
    /\ (forall key' h', (key', h') ∈ m -> segment_match key' resource ->
          (String.length key' <= String.length key)%nat)
    /\ findRequestHandler m resource = Some h
    /\ spec_find m resource = Some h.
Proof.
  intros Hs (key0 & h0 & Hin0 & Hm0).
  destruct (findRequestHandler_longest m resource key0 h0 Hs Hin0 Hm0)
    as (key & h & Hin & Hm & Hfind & Hmax).
  exists key, h. split_and!; try done.
  by rewrite (spec_find_agrees m resource key0 h0).
Qed.

Lemma three_resources_sorted : StdMap.sorted Samples.three_resources.
Proof.
  unfold StdMap.sorted. vm_compute. repeat constructor.
Qed.

Lemma findRequestHandler_longest_prefix_witness :
  exists key h,
    (key, h) ∈ Samples.three_resources
    /\ segment_match key "/a/b/c"
    /\ (forall key' h', (key', h') ∈ Samples.three_resources ->
          segment_match key' "/a/b/c" ->
          (String.length key' <= String.length key)%nat)
    /\ findRequestHandler Samples.three_resources "/a/b/c" = Some h
    /\ spec_find Samples.three_resources "/a/b/c" = Some h.
Proof.
  apply (findRequestHandler_longest_prefix Samples.three_resources "/a/b/c").
  - exact three_resources_sorted.
  - exists "/a", 1. split.
    + vm_compute. apply list_elem_of_further, list_elem_of_here.
    + right. by exists "b/c".
Defined.

(** C2, as the spec has it, fails: the second [addResource] under a key
    does not replace the handler of the first. *)
Lemma addResource_twice_counterexample :
  findRequestHandler (addResource "/a" 2 (addResource "/a" 1 [])) "/a"
  <> Some 2.
Proof. vm_compute. discriminate. Qed.

(** C2, amended: a second [addResource] under the same key leaves the
    registry as the first one made it, so that the lookup of the key (as
    stored, without its trailing slash) returns the handler registered
    first: the one the key had before, or else [h], never [h']; and a
    second [removeResource] of a key leaves the registry as the first one
    made it. *)
Theorem addResource_twice_keeps_first {V : Type} (m : list (string * V))
    (K : string) (h h' : V) :
  StdMap.sorted m ->
  addResource K h' (addResource K h m) = addResource K h m
  /\ findRequestHandler (addResource K h' (addResource K h m))
       (stripTrailingSlash K)
     = Some (default h (StdMap.find (stripTrailingSlash K) m))
  /\ removeResource K (removeResource K m) = removeResource K m.
Proof.
  intros Hs. unfold addResource, removeResource.
  rewrite insert_insert. split_and!; [done| |apply erase_erase].
  apply findRequestHandler_exact; [by apply sorted_insert|].
  apply elem_of_insert.
Qed.

Lemma addResource_twice_keeps_first_witness :
  addResource "/a/" 7 (addResource "/a/" 5 Samples.three_resources)
  = addResource "/a/" 5 Samples.three_resources
  /\ findRequestHandler
       (addResource "/a/" 7 (addResource "/a/" 5 Samples.three_resources))
       (stripTrailingSlash "/a/")
     = Some (default 5 (StdMap.find (stripTrailingSlash "/a/")
                          Samples.three_resources))
  /\ removeResource "/a/" (removeResource "/a/" Samples.three_resources)
     = removeResource "/a/" Samples.three_resources.
Proof.
  apply (addResource_twice_keeps_first Samples.three_resources "/a/" 5 7).
  exact three_resources_sorted.
Defined.

(** C6, as the spec has it, fails: the empty key does not match a resource
    that starts with another character than ['/']. *)
Lemma empty_key_counterexample :
  StdMap.sorted [("", 0)] /\ ("", 0) ∈ [("", 0)]
  /\ findRequestHandler [("", 0)] "abc" = None.
Proof.
  split_and!; [|apply list_elem_of_here|reflexivity].
  unfold StdMap.sorted. repeat constructor.
Qed.

(** There, and only in such a case, the rule as the spec words it parts
    from the code: it would accept the empty key. *)
Example spec_rule_on_empty_key :
  spec_find [("", 0)] "abc" = Some 0
  /\ findRequestHandler [("", 0)] "abc" = None.
Proof. split; reflexivity. Qed.

(** C6, amended: in a registry that has the empty key, the lookup of a
    resource succeeds exactly when the resource is empty, or starts with
    ['/'], or matches another key: the empty key catches every resource
    that is empty or starts with ['/'], and no other. *)
Theorem empty_key_catches_rooted {V : Type} (m : list (string * V))
    (h0 : V) (resource : string) :
  StdMap.sorted m -> ("", h0) ∈ m ->
  (is_Some (findRequestHandler m resource) <->
   resource = ""
   \/ (exists rest, resource = "/" +:+ rest)
   \/ (exists key h, key <> "" /\ (key, h) ∈ m /\ segment_match key resource)).
Proof.
  intros Hs Hin0. split.
  - intros [h Hfind].
    destruct (findRequestHandler_Some_inv m resource h Hs Hfind)
      as (key & Hin & Hm).
    destruct key as [|c key].
    + destruct Hm as [->|[rest ->]]; [by left|right; left; by exists rest].
    + right. right. by exists (String c key), h.
  - intros Hcases.
    assert (exists key h, (key, h) ∈ m /\ segment_match key resource)
      as (key & h & Hin & Hm).
    { destruct Hcases as [->|[[rest ->]|(key & h & _ & Hin & Hm)]].
      - exists "", h0. split; [done|by left].
      - exists "", h0. split; [done|right; by exists rest].
      - by exists key, h. }
    destruct (findRequestHandler_longest m resource key h Hs Hin Hm)
      as (? & h' & _ & _ & -> & _).
    by exists h'.
Qed.

Lemma empty_key_catches_rooted_witness :
  is_Some (findRequestHandler Samples.three_resources "/zzz") <->
  "/zzz" = ""
  \/ (exists rest, "/zzz" = "/" +:+ rest)
  \/ (exists key h, key <> "" /\ (key, h) ∈ Samples.three_resources
                    /\ segment_match key "/zzz").
Proof.
  apply (empty_key_catches_rooted Samples.three_resources 0 "/zzz").
  - exact three_resources_sorted.
  - vm_compute. apply list_elem_of_here.
Defined.

(** ** Substrings *)

Section ContainsFacts.
Implicit Types (needle hay pre post : string).

Lemma contains_unfold needle hay :
  StdString.contains needle hay
  = String.prefix needle hay
    || match hay with
       | EmptyString => false
       | String _ hay' => StdString.contains needle hay'
       end.
Proof. by destruct hay. Qed.

Lemma contains_app needle pre post :
  StdString.contains needle (pre +:+ needle +:+ post) = true.
Proof.
  induction pre as [|c pre IH]; rewrite contains_unfold.
  - simpl. by rewrite prefix_app.
  - simpl. by rewrite IH, orb_true_r.
Qed.

Lemma contains_inv needle hay :
  StdString.contains needle hay = true ->
  exists pre post, hay = pre +:+ needle +:+ post.
Proof.
  induction hay as [|c hay IH]; rewrite contains_unfold;
    intros [Hpre|Hrec]%orb_true_iff.
  - apply prefix_inv in Hpre as [post ->]. by exists "", post.
  - done.
  - apply prefix_inv in Hpre as [post ->]. by exists "", post.
  - destruct (IH Hrec) as (pre & post & ->). by exists (String c pre), post.
Qed.

Lemma contains_trans needle hay hay' :
  StdString.contains needle hay = true ->
  StdString.contains hay hay' = true ->
  StdString.contains needle hay' = true.
Proof.
  intros (pre & post & ->)%contains_inv (pre' & post' & ->)%contains_inv.
  rewrite <- (app_assoc pre'), !app_assoc.
  rewrite <- (app_assoc pre' pre). apply contains_app.
Qed.

End ContainsFacts.

(** ** The default responders *)

Lemma handleBadRequest_response req conn :
  handleBadRequest req conn
  = [EvSend {| m_status_code := 400;
               m_status_message := RESPONSE_MESSAGE_BAD_REQUEST;
               m_content := BAD_REQUEST_HTML |} connection_finish].
Proof. reflexivity. Qed.

Lemma handleNotFoundRequest_response req conn :
  handleNotFoundRequest req conn
  = [EvSend {| m_status_code := 404;
               m_status_message := RESPONSE_MESSAGE_NOT_FOUND;
               m_content := NOT_FOUND_HTML_START +:+ getResource req
                            +:+ NOT_FOUND_HTML_FINISH |} connection_finish].
Proof. reflexivity. Qed.

Lemma handleServerError_response req conn error_msg :
  handleServerError req conn error_msg
  = [EvSend {| m_status_code := 500;
               m_status_message := RESPONSE_MESSAGE_SERVER_ERROR;
               m_content := SERVER_ERROR_HTML_START +:+ error_msg
                            +:+ SERVER_ERROR_HTML_FINISH |} connection_finish].
Proof. reflexivity. Qed.

(** ** The redirection loop *)

(** Side conditions on the fuel and on the bound of the loop. *)
Ltac bound_lia :=
  unfold redirect_fuel, MAX_REDIRECTS in *; simpl in *; lia.

Section LoopFacts.
Context (redirects : gmap string string).
Implicit Types (st : redirect_state) (l : list string) (r : string).

Lemma last_cons (t d : string) l : List.last (t :: l) d = List.last l t.
Proof.
  revert t d. induction l as [|t' l IH]; intros t d; [done|].
  change (List.last (t :: t' :: l) d) with (List.last (t' :: l) d).
  by rewrite !IH.
Qed.

Lemma last_snoc (t d : string) l : List.last (l ++ [t]) d = t.
Proof.
  revert d. induction l as [|t' l IH]; intros d; [done|].
  change ((t' :: l) ++ [t]) with (t' :: (l ++ [t])).
  by rewrite last_cons.
Qed.

(** The counter does not wrap around below the bound. *)
Lemma uint_incr_small n :
  (0 <= n <= MAX_REDIRECTS)%Z -> uint_incr n = (n + 1)%Z.
Proof.
  unfold uint_incr, MAX_REDIRECTS. intros Hn.
  apply Z.mod_small. lia.
Qed.

Lemma redirect_path_length n r l :
  redirect_path redirects n r = Some l -> length l = n.
Proof.
  revert r l. induction n as [|n IH]; intros r l; simpl.
  - by intros [= <-].
  - destruct (redirects !! r) as [t|]; [|done].
    intros (l' & Hl' & ->)%fmap_Some. simpl. f_equal. eauto.
Qed.

(** A path of [n + 1] redirections is one of [n] followed by one more. *)
Lemma redirect_path_snoc n r l :
  redirect_path redirects (S n) r = Some l ->
  exists l' t,
    l = l' ++ [t] /\ redirect_path redirects n r = Some l'
    /\ redirects !! List.last l' r = Some t.
Proof.
  revert r l. induction n as [|n IH]; intros r l.
  - simpl. destruct (redirects !! r) as [t|] eqn:Hr; [|done].
    intros [= <-]. by exists [], t.
  - change (redirect_path redirects (S (S n)) r)
      with (match redirects !! r with
            | None => None
            | Some t => (t ::.) <$> redirect_path redirects (S n) t
            end).
    destruct (redirects !! r) as [t|] eqn:Hr; [|done].
    intros (l1 & Hl1 & ->)%fmap_Some.
    destruct (IH _ _ Hl1) as (l' & t' & -> & Hl' & Hlast).
    exists (t :: l'), t'. split_and!; [done| |by rewrite last_cons].
    simpl. by rewrite Hr, Hl'.
Qed.

Lemma advance_nil st :
  it st = redirects !! resource_requested st -> advance redirects st [] = st.
Proof.
  destruct st as [i n r req rw]. simpl. intros ->.
  unfold advance. simpl. by rewrite Z.add_0_r, app_nil_r.
Qed.

(** Along a path that stays within the bound, the loop runs its body
    once per redirection. *)
Lemma redirect_loop_advance l st fuel :
  it st = redirects !! resource_requested st ->
  redirect_path redirects (length l) (resource_requested st) = Some l ->
  (0 <= num_redirects st)%Z ->
  (num_redirects st + Z.of_nat (length l) <= MAX_REDIRECTS)%Z ->
  redirect_loop (length l + fuel) redirects st
  = redirect_loop fuel redirects (advance redirects st l).
Proof.
  revert st. induction l as [|t l IH]; intros st Hit Hpath Hnum Hmax.
  - by rewrite advance_nil.
  - simpl in Hpath.
    destruct (redirects !! resource_requested st) as [t'|] eqn:Hr; [|done].
    apply fmap_Some in Hpath as (l' & Hpath & [= <- <-]).
    simpl length in *. simpl redirect_loop. unfold redirect_step.
    rewrite Hit, uint_incr_small by lia.
    destruct (Z.ltb_spec MAX_REDIRECTS (num_redirects st + 1)) as [|_];
      [lia|].
    rewrite IH; [|done|done|simpl; lia|simpl; lia].
    f_equal. unfold advance.
    cbn [it num_redirects resource_requested http_request rewrites].
    rewrite last_cons. f_equal.
    + rewrite length_cons. lia.
    + by rewrite <- (assoc_L (++)).
Qed.

(** A chain of at most [MAX_REDIRECTS] redirections is followed to its
    end, and the loop is left by its test. *)
Lemma redirect_loop_resolves req l fuel :
  resolves redirects req l -> (length l < fuel)%nat ->
  redirect_loop fuel redirects (redirect_init redirects req)
  = Some (LoopExit
            {| it := None;
               num_redirects := Z.of_nat (length l);
               resource_requested :=
                 List.last l (stripTrailingSlash (getResource req));
               http_request := rewritten req l;
               rewrites := EvChangeResource <$> l |}).
Proof.
  intros (Hpath & Hmax & Hend) Hfuel.
  replace fuel with (length l + S (fuel - S (length l)))%nat by lia.
  rewrite redirect_loop_advance; [|done|done|done|simpl; lia].
  simpl. unfold redirect_step, advance. simpl. by rewrite Hend.
Qed.

(** When eleven redirections in a row are there to follow, the loop runs
    its body ten times in full and leaves it in the eleventh run. *)
Lemma redirect_loop_exceeds req l fuel :
  redirect_path redirects (S (Z.to_nat MAX_REDIRECTS))
    (stripTrailingSlash (getResource req)) = Some l ->
  (Z.to_nat MAX_REDIRECTS < fuel)%nat ->
  exists l' t,
    l = l' ++ [t] /\ length l' = Z.to_nat MAX_REDIRECTS
    /\ redirect_loop fuel redirects (redirect_init redirects req)
       = Some (LoopExceeded
                 {| it := Some t;
                    num_redirects := MAX_REDIRECTS + 1;
                    resource_requested :=
                      List.last l' (stripTrailingSlash (getResource req));
                    http_request := rewritten req l';
                    rewrites := EvChangeResource <$> l' |}).
Proof.
  intros (l' & t & -> & Hpath & Hlast)%redirect_path_snoc Hfuel.
  pose proof (redirect_path_length _ _ _ Hpath) as Hlen.
  exists l', t. split_and!; [done..|].
  replace fuel with (length l' + S (fuel - S (length l')))%nat by lia.
  rewrite <- Hlen in Hpath.
  rewrite redirect_loop_advance;
    [|done|done|done|bound_lia].
  simpl. unfold redirect_step, advance. simpl. rewrite Hlast, Hlen.
  reflexivity.
Qed.

(** From any resource, either a chain of at most [n] redirections ends at
    a resource without an entry, or [n + 1] redirections in a row are there
    to follow. *)
Lemma redirect_path_dichotomy (n : nat) r :
  (exists l, (length l <= n)%nat
             /\ redirect_path redirects (length l) r = Some l
             /\ redirects !! List.last l r = None)
  \/ is_Some (redirect_path redirects (S n) r).
Proof.
  revert r. induction n as [|n IH]; intros r.
  - simpl. destruct (redirects !! r) as [t|] eqn:Hr.
    + right. by eexists.
    + left. by exists [].
  - destruct (redirects !! r) as [t|] eqn:Hr.
    + destruct (IH t) as [(l & Hlen & Hpath & Hend)|[l Hpath]].
      * left. exists (t :: l). split_and!.
        -- simpl. lia.
        -- simpl. by rewrite Hr, Hpath.
        -- by rewrite last_cons.
      * right. exists (t :: l).
        change (redirect_path redirects (S (S n)) r)
          with (match redirects !! r with
                | None => None
                | Some t => (t ::.) <$> redirect_path redirects (S n) t
                end).
        by rewrite Hr, Hpath.
    + left. exists []. split_and!; [simpl; lia|done|done].
Qed.

(** Every request either resolves or passes the bound. *)
Lemma resolves_or_exceeds req :
  (exists l, resolves redirects req l)
  \/ is_Some (redirect_path redirects (S (Z.to_nat MAX_REDIRECTS))
                (stripTrailingSlash (getResource req))).
Proof.
  destruct (redirect_path_dichotomy (Z.to_nat MAX_REDIRECTS)
              (stripTrailingSlash (getResource req)))
    as [(l & Hlen & Hpath & Hend)|Hex]; [left|by right].
  exists l. split_and!; [done|bound_lia|done].
Qed.

(** The counter counts the runs of the body; it never passes the bound
    while the loop goes on. *)
Lemma iterate_counter k st0 st :
  (0 <= num_redirects st0 <= MAX_REDIRECTS)%Z ->
  iterate redirects k st0 = Some st ->
  num_redirects st = (num_redirects st0 + Z.of_nat k)%Z
  /\ (num_redirects st <= MAX_REDIRECTS)%Z.
Proof.
  revert st0. induction k as [|k IH]; intros st0 Hn0; simpl.
  - intros [= <-]. lia.
  - unfold redirect_step. destruct (it st0) as [t|]; [|done].
    rewrite uint_incr_small by done.
    destruct (Z.ltb_spec MAX_REDIRECTS (num_redirects st0 + 1)); [done|].
    intros Hk. apply IH in Hk; simpl in *; lia.
Qed.

(** From a state whose counter is within the bound, the loop is left
    after at most as many tests as the bound leaves room for, plus one. *)
Lemma redirect_loop_bounded (room : nat) st :
  (0 <= num_redirects st)%Z ->
  (num_redirects st + Z.of_nat room = MAX_REDIRECTS)%Z ->
  exists (n : nat) (final : loop_step),
    (1 <= n <= S room)%nat
    /\ (forall fuel, (fuel < n)%nat -> redirect_loop fuel redirects st = None)
    /\ (forall fuel, (n <= fuel)%nat ->
          redirect_loop fuel redirects st = Some final)
    /\ ((exists st', final = LoopExit st' /\ it st' = None)
        \/ (exists st', final = LoopExceeded st'
              /\ num_redirects st' = (MAX_REDIRECTS + 1)%Z)).
Proof.
  revert st. induction room as [|room IH]; intros st Hn0 Hroom.
  - exists 1%nat. destruct (it st) as [t|] eqn:Hit.
    + eexists. split_and!; [lia|lia|..].
      * intros [|fuel] ?; [done|lia].
      * intros [|fuel] ?; [lia|]. simpl. unfold redirect_step.
        rewrite Hit, uint_incr_small by lia.
        destruct (Z.ltb_spec MAX_REDIRECTS (num_redirects st + 1)); [|lia].
        done.
      * right. eexists. split; [done|]. simpl. lia.
    + exists (LoopExit st). split_and!; [lia|lia|..].
      * intros [|fuel] ?; [done|lia].
      * intros [|fuel] ?; [lia|]. simpl. unfold redirect_step.
        by rewrite Hit.
      * left. by exists st.
  - destruct (it st) as [t|] eqn:Hit.
    + set (st1 := {| it := redirects !! t;
                     num_redirects := num_redirects st + 1;
                     resource_requested := t;
                     http_request := changeResource (http_request st) t;
                     rewrites := rewrites st ++ [EvChangeResource t] |}).
      assert (redirect_step redirects st = LoopContinue st1) as Hstep.
      { unfold redirect_step. rewrite Hit, uint_incr_small by lia.
        destruct (Z.ltb_spec MAX_REDIRECTS (num_redirects st + 1)); [lia|].
        done. }
      destruct (IH st1) as (n & final & Hn & Hlow & Hhigh & Hfinal);
        [simpl; lia..|].
      exists (S n), final. split_and!; [lia|lia|..|done].
      * intros [|fuel] ?; [done|]. simpl. rewrite Hstep. apply Hlow. lia.
      * intros [|fuel] ?; [lia|]. simpl. rewrite Hstep. apply Hhigh. lia.
    + exists 1%nat, (LoopExit st). split_and!; [lia|lia|..].
      * intros [|fuel] ?; [done|lia].
      * intros [|fuel] ?; [lia|]. simpl. unfold redirect_step.
        by rewrite Hit.
      * left. by exists st.
Qed.

End LoopFacts.

(** ** The request after the rewrites *)

Lemma rewritten_snoc req l t :
  rewritten req (l ++ [t]) = changeResource (rewritten req l) t.
Proof. unfold rewritten. by rewrite foldl_app. Qed.

(** [changeResource] touches the current resource only. *)
Lemma rewritten_fields req l :
  getOriginalResource (rewritten req l) = getOriginalResource req
  /\ getMethod (rewritten req l) = getMethod req
  /\ isValid (rewritten req l) = isValid req
  /\ getResource (rewritten req l) = List.last l (getResource req).
Proof.
  induction l as [|t l IH] using rev_ind; [done|].
  rewrite rewritten_snoc, last_snoc. simpl. tauto.
Qed.

Lemma rewritten_nil req : rewritten req [] = req.
Proof. done. Qed.

(** ** The dispatcher *)

(** C9: whatever the redirect table (cycles and self-redirections
    included), the redirection loop ends: it makes at most
    [MAX_REDIRECTS + 1] tests, and then it has left by its test (the table
    has no entry) or by the branch of the exceeded bound; as long as it goes
    on, its counter is the number of runs of the body made so far, so it
    grows by one with each run, and it stays within the bound. *)
Theorem redirect_loop_terminates (redirects : gmap string string)
    (req : HTTPRequest) :
  (exists (n : nat) (final : loop_step),
      (1 <= n <= S (Z.to_nat MAX_REDIRECTS))%nat
      /\ (forall fuel, (fuel < n)%nat ->
            redirect_loop fuel redirects (redirect_init redirects req) = None)
      /\ (forall fuel, (n <= fuel)%nat ->
            redirect_loop fuel redirects (redirect_init redirects req)
            = Some final)
      /\ ((exists st, final = LoopExit st /\ it st = None)
          \/ (exists st, final = LoopExceeded st
                /\ num_redirects st = (MAX_REDIRECTS + 1)%Z)))
  /\ (forall k st,
        iterate redirects k (redirect_init redirects req) = Some st ->
        num_redirects st = Z.of_nat k
        /\ (num_redirects st <= MAX_REDIRECTS)%Z).
Proof.
  split.
  - apply (redirect_loop_bounded redirects (Z.to_nat MAX_REDIRECTS));
      bound_lia.
  - intros k st Hk. apply iterate_counter in Hk; bound_lia.
Qed.

(** A resource redirected to itself: ten rewrites, and the loop is left by
    the branch of the exceeded bound in its eleventh run. *)
Example self_redirect_exceeds :
  exists st,
    redirect_loop 11 Samples.redirect_self
      (redirect_init Samples.redirect_self (Samples.get "/s"))
    = Some (LoopExceeded st)
    /\ num_redirects st = 11%Z
    /\ length (rewrites st) = 10%nat
    /\ redirect_loop 10 Samples.redirect_self
         (redirect_init Samples.redirect_self (Samples.get "/s")) = None.
Proof.
  eexists. split_and!; [vm_compute; reflexivity|reflexivity..].
Qed.

Section DispatchFacts.
Context (diagnostic_information : exn -> string).
Implicit Types (srv : HTTPServer) (req : HTTPRequest) (conn : connection)
  (ec : error_code) (l : list string).

(** With enough fuel for the loop, the model of [handleRequest] always
    gives an outcome. *)
Lemma handleRequest_returns fuel srv req conn ec :
  (redirect_fuel <= fuel)%nat ->
  is_Some (handleRequest diagnostic_information fuel srv req conn ec).
Proof.
  intros Hfuel. unfold handleRequest.
  destruct (ec_is_set ec || negb (isValid req)).
  - by destruct (_ && _).
  - destruct (redirect_loop_bounded (m_redirects srv)
                (Z.to_nat MAX_REDIRECTS)
                (redirect_init (m_redirects srv) req))
      as (n & final & Hn & _ & Hhigh & Hfinal); [done|done|].
    rewrite Hhigh by bound_lia.
    destruct Hfinal as [(st & -> & _)|(st & -> & _)]; [|done].
    by destruct (authenticate_and_dispatch _ _ _ _ _).
Qed.

(** The dispatch of a request whose redirections resolve. *)
Lemma handleRequest_resolved fuel srv req conn ec l :
  ec_is_set ec = false -> isValid req = true ->
  (redirect_fuel <= fuel)%nat ->
  resolves (m_redirects srv) req l ->
  handleRequest diagnostic_information fuel srv req conn ec
  = Some {|
      out_request := rewritten req l;
      out_conn := conn;
      out_trace :=
        (EvChangeResource <$> l)
        ++ (authenticate_and_dispatch diagnostic_information srv
              (List.last l (stripTrailingSlash (getResource req)))
              (rewritten req l) conn).1;
      out_thrown :=
        (authenticate_and_dispatch diagnostic_information srv
           (List.last l (stripTrailingSlash (getResource req)))
           (rewritten req l) conn).2 |}.
Proof.
  intros Hec Hvalid Hfuel Hres. unfold handleRequest.
  rewrite Hec, Hvalid. simpl.
  rewrite (redirect_loop_resolves _ _ l) by
    (try done; destruct Hres as (_ & ? & _); bound_lia).
  cbn [resource_requested http_request rewrites].
  by destruct (authenticate_and_dispatch _ _ _ _ _).
Qed.

(** The dispatch of a request whose redirections pass the bound. *)
Lemma handleRequest_exceeded fuel srv req conn ec :
  ec_is_set ec = false -> isValid req = true ->
  (redirect_fuel <= fuel)%nat ->
  is_Some (redirect_path (m_redirects srv) (S (Z.to_nat MAX_REDIRECTS))
             (stripTrailingSlash (getResource req))) ->
  exists l,
    redirect_path (m_redirects srv) (Z.to_nat MAX_REDIRECTS)
      (stripTrailingSlash (getResource req)) = Some l
    /\ handleRequest diagnostic_information fuel srv req conn ec
       = Some {|
           out_request := rewritten req l;
           out_conn := conn;
           out_trace :=
             (EvChangeResource <$> l)
             ++ [EvServerError (rewritten req l) REDIRECTS_EXCEEDED_MSG]
             ++ m_server_error_handler srv (rewritten req l) conn
                  REDIRECTS_EXCEEDED_MSG;
           out_thrown := None |}.
Proof.
  intros Hec Hvalid Hfuel [l' Hpath]. unfold handleRequest.
  rewrite Hec, Hvalid. simpl.
  destruct (redirect_loop_exceeds _ req l' fuel Hpath)
    as (l & t & -> & Hlen & ->); [bound_lia|].
  exists l. split; [|done].
  apply redirect_path_snoc in Hpath as (l1 & t1 & Heq & Hpath & _).
  by apply app_inj_tail in Heq as [-> _].
Qed.

(** The gate, when the authenticator lets the request through. *)
Lemma authenticate_passes srv resource req conn :
  auth_passes srv req conn ->
  authenticate_and_dispatch diagnostic_information srv resource req conn
  = (auth_events srv req
     ++ (lookup_and_invoke diagnostic_information srv resource req conn).1,
     (lookup_and_invoke diagnostic_information srv resource req conn).2).
Proof.
  unfold auth_passes, auth_events, authenticate_and_dispatch.
  destruct (m_auth_ptr srv) as [auth|].
  - intros ->. simpl. by destruct (lookup_and_invoke _ _ _ _ _).
  - intros _. by destruct (lookup_and_invoke _ _ _ _ _).
Qed.

(** An object that is no [std::exception] passes both [catch] clauses. *)
Lemma invoke_non_std_exception srv (h : RequestHandler) req conn :
  h req conn = Some non_std_exception ->
  invoke diagnostic_information srv h req conn
  = ([EvHandler h req], Some non_std_exception).
Proof. unfold invoke. by intros ->. Qed.

(** A handler that returns leaves the dispatcher without any other call. *)
Lemma invoke_returns srv (h : RequestHandler) req conn :
  h req conn = None ->
  invoke diagnostic_information srv h req conn = ([EvHandler h req], None).
Proof. unfold invoke. by intros ->. Qed.

End DispatchFacts.

(** ** The dispatcher: the properties of the spec *)

Section DispatchClaims.
Context (diagnostic_information : exn -> string).
Implicit Types (srv : HTTPServer) (req : HTTPRequest) (conn : connection)
  (ec : error_code) (l : list string).

(** C4: when the error code is set or the request is not valid, the
    lifecycle of the connection is set to CLOSE first; then the
    bad-request responder is called if and only if the connection is open
    and the category of the error is the parser's (the default responder
    then sends a 400), and otherwise [finish()] is called and nothing is
    sent; in both cases the dispatcher returns there: no redirection, no
    authentication, no lookup, no exception, the request untouched. *)
Theorem error_gate fuel srv req conn ec :
  ec_is_set ec = true \/ isValid req = false ->
  exists out,
    handleRequest diagnostic_information fuel srv req conn ec = Some out
    /\ out_conn out = set_lifecycle conn LIFECYCLE_CLOSE
    /\ m_lifecycle (out_conn out) = LIFECYCLE_CLOSE
    /\ out_request out = req
    /\ out_thrown out = None
    /\ ((is_open conn = true /\ ec_category ec = parser_error_category
         /\ out_trace out
            = [EvSetLifecycle LIFECYCLE_CLOSE; EvBadRequest req]
              ++ m_bad_request_handler srv req (out_conn out)
         /\ (m_bad_request_handler srv = handleBadRequest ->
             exists resp,
               out_trace out
               = [EvSetLifecycle LIFECYCLE_CLOSE; EvBadRequest req;
                  EvSend resp connection_finish]
               /\ m_status_code resp = 400%Z))
        \/ (~ (is_open conn = true
               /\ ec_category ec = parser_error_category)
            /\ out_trace out = [EvSetLifecycle LIFECYCLE_CLOSE; EvFinish])).
Proof.
  intros Hgate. unfold handleRequest.
  assert (ec_is_set ec || negb (isValid req) = true) as ->.
  { destruct Hgate as [->| ->]; [done|apply orb_true_r]. }
  change (is_open (set_lifecycle conn LIFECYCLE_CLOSE)) with (is_open conn).
  destruct (is_open conn) eqn:Hopen; simpl.
  - destruct (ec_category ec) eqn:Hcat; simpl; eexists;
      (split_and!; [done..|]).
    + left. split_and!; [done..|]. intros ->.
      rewrite handleBadRequest_response. by eexists.
    + right. split; [|done]. by intros [_ ?].
    + right. split; [|done]. by intros [_ ?].
  - eexists. split_and!; [done..|]. right. split; [|done]. by intros [? _].
Qed.

(** C3, amended: when eleven redirections in a row are there to follow
    from the stripped resource (so that ten rewrites do not lead to a
    resource without an entry), the dispatcher makes exactly
    [MAX_REDIRECTS = 10] rewrites, then calls the server-error responder,
    and neither the authenticator nor a handler nor the not-found
    responder; the response of the default responder has status 500 and a
    body that contains the text "Maximum number of redirects
    (HTTPServer::MAX_REDIRECTS) exceeded for requested resource". *)
Theorem redirect_bound_exceeded fuel srv req conn ec :
  ec_is_set ec = false -> isValid req = true ->
  (redirect_fuel <= fuel)%nat ->
  m_server_error_handler srv = handleServerError ->
  is_Some (redirect_path (m_redirects srv) (S (Z.to_nat MAX_REDIRECTS))
             (stripTrailingSlash (getResource req))) ->
  exists l resp,
    length l = 10%nat
    /\ redirect_path (m_redirects srv) 10
         (stripTrailingSlash (getResource req)) = Some l
    /\ handleRequest diagnostic_information fuel srv req conn ec
       = Some {|
           out_request := rewritten req l;
           out_conn := conn;
           out_trace :=
             (EvChangeResource <$> l)
             ++ [EvServerError (rewritten req l) REDIRECTS_EXCEEDED_MSG;
                 EvSend resp connection_finish];
           out_thrown := None |}
    /\ m_status_code resp = 500%Z
    /\ StdString.contains REDIRECTS_EXCEEDED_MSG (m_content resp) = true.
Proof.
  intros Hec Hvalid Hfuel Hdefault Hpath.
  destruct (handleRequest_exceeded diagnostic_information fuel srv req conn
              ec Hec Hvalid Hfuel Hpath) as (l & Hl & ->).
  rewrite Hdefault, handleServerError_response.
  eexists l, _. split_and!; [|done|done|done|].
  - by apply redirect_path_length in Hl.
  - apply contains_app.
Qed.

(** C5, amended: a handler that throws [std::bad_alloc] lets it leave
    [handleRequest], and the server-error responder is not called; a
    handler that throws another exception derived from [std::exception]
    has it caught: nothing leaves [handleRequest], the server-error
    responder is called with the diagnostic text of the exception, and the
    response of the default responder has status 500 and a body that
    contains this text, hence also the [what()] message when the diagnostic
    text contains it; a thrown object that is no [std::exception] is not
    caught: it leaves [handleRequest] like the allocation failure, and no
    responder is called. *)
Theorem handler_fault_envelope fuel srv req conn ec l h :
  ec_is_set ec = false -> isValid req = true ->
  (redirect_fuel <= fuel)%nat ->
  resolves (m_redirects srv) req l ->
  auth_passes srv (rewritten req l) conn ->
  findRequestHandler (m_resources srv)
    (List.last l (stripTrailingSlash (getResource req))) = Some h ->
  m_server_error_handler srv = handleServerError ->
  (h (rewritten req l) conn = Some bad_alloc ->
   handleRequest diagnostic_information fuel srv req conn ec
   = Some {|
       out_request := rewritten req l;
       out_conn := conn;
       out_trace :=
         (EvChangeResource <$> l) ++ auth_events srv (rewritten req l)
         ++ [EvHandler h (rewritten req l)];
       out_thrown := Some bad_alloc |})
  /\ (forall what,
        h (rewritten req l) conn = Some (std_exception what) ->
        exists resp,
          handleRequest diagnostic_information fuel srv req conn ec
          = Some {|
              out_request := rewritten req l;
              out_conn := conn;
              out_trace :=
                (EvChangeResource <$> l)
                ++ auth_events srv (rewritten req l)
                ++ [EvHandler h (rewritten req l);
                    EvServerError (rewritten req l)
                      (diagnostic_information (std_exception what));
                    EvSend resp connection_finish];
              out_thrown := None |}
          /\ m_status_code resp = 500%Z
          /\ StdString.contains
               (diagnostic_information (std_exception what))
               (m_content resp) = true
          /\ (StdString.contains what
                (diagnostic_information (std_exception what)) = true ->
              StdString.contains what (m_content resp) = true))
  /\ (h (rewritten req l) conn = Some non_std_exception ->
      handleRequest diagnostic_information fuel srv req conn ec
      = Some {|
          out_request := rewritten req l;
          out_conn := conn;
          out_trace :=
            (EvChangeResource <$> l) ++ auth_events srv (rewritten req l)
            ++ [EvHandler h (rewritten req l)];
          out_thrown := Some non_std_exception |}).
Proof.
  intros Hec Hvalid Hfuel Hres Hauth Hfind Hdefault.
  rewrite (handleRequest_resolved _ fuel srv req conn ec l) by done.
  rewrite authenticate_passes by done.
  unfold lookup_and_invoke. rewrite Hfind. split_and!.
  - unfold invoke. by intros ->.
  - unfold invoke. intros what ->. simpl.
    rewrite Hdefault, handleServerError_response.
    eexists. split_and!; [done|done|apply contains_app|].
    intros Hwhat. eapply contains_trans; [exact Hwhat|apply contains_app].
  - intros Hthrow. by rewrite invoke_non_std_exception.
Qed.

(** C7, amended: the trailing ['/'] is stripped from a local copy of the
    resource, which is what the redirect table and the registry are
    searched with; the resource of the request itself is not touched:
    when no redirect entry applies, the request leaves the dispatcher as
    it came, trailing slash included. *)
Theorem trailing_slash_stripped_locally fuel srv req conn ec :
  ec_is_set ec = false -> isValid req = true ->
  (redirect_fuel <= fuel)%nat ->
  m_redirects srv !! stripTrailingSlash (getResource req) = None ->
  exists out,
    handleRequest diagnostic_information fuel srv req conn ec = Some out
    /\ out_request out = req
    /\ getResource (out_request out) = getResource req
    /\ (out_trace out, out_thrown out)
       = authenticate_and_dispatch diagnostic_information srv
           (stripTrailingSlash (getResource req)) req conn.
Proof.
  intros Hec Hvalid Hfuel Hnone.
  rewrite (handleRequest_resolved _ fuel srv req conn ec []);
    [|done|done|done|].
  - eexists. split_and!; [done..|]. simpl.
    by destruct (authenticate_and_dispatch _ _ _ _ _).
  - split_and!; [done|bound_lia|done].
Qed.

(** C8: when the redirections from the stripped resource form a chain of
    at most [MAX_REDIRECTS] steps, the loop ends by its test (the
    server-error call of the exceeded bound is not made), after one
    [changeResource] per step and nothing else; whatever part of the
    chain has been followed, the original resource, the method and the
    validity of the request are as they were, only the resource is the
    last target; what follows (authenticator, handler) is given the
    request with its original resource as first seen. *)
Theorem redirect_chain_keeps_original fuel srv req conn ec l :
  ec_is_set ec = false -> isValid req = true ->
  (redirect_fuel <= fuel)%nat ->
  resolves (m_redirects srv) req l ->
  (exists st,
      redirect_loop fuel (m_redirects srv)
        (redirect_init (m_redirects srv) req) = Some (LoopExit st)
      /\ rewrites st = EvChangeResource <$> l
      /\ http_request st = rewritten req l
      /\ num_redirects st = Z.of_nat (length l))
  /\ (forall l', l' `prefix_of` l ->
        getOriginalResource (rewritten req l') = getOriginalResource req
        /\ getMethod (rewritten req l') = getMethod req
        /\ isValid (rewritten req l') = isValid req
        /\ getResource (rewritten req l') = List.last l' (getResource req))
  /\ (exists out,
        handleRequest diagnostic_information fuel srv req conn ec = Some out
        /\ out_request out = rewritten req l
        /\ getOriginalResource (out_request out) = getOriginalResource req
        /\ out_trace out
           = (EvChangeResource <$> l)
             ++ (authenticate_and_dispatch diagnostic_information srv
                   (List.last l (stripTrailingSlash (getResource req)))
                   (rewritten req l) conn).1
        /\ (forall h,
              auth_passes srv (rewritten req l) conn ->
              findRequestHandler (m_resources srv)
                (List.last l (stripTrailingSlash (getResource req)))
              = Some h ->
              exists evs,
                out_trace out
                = (EvChangeResource <$> l)
                  ++ auth_events srv (rewritten req l)
                  ++ EvHandler h (rewritten req l) :: evs)).
Proof.
  intros Hec Hvalid Hfuel Hres. split_and!.
  - eexists. split.
    + apply redirect_loop_resolves; [done|].
      destruct Hres as (_ & ? & _). bound_lia.
    + done.
  - intros l' _. apply rewritten_fields.
  - rewrite (handleRequest_resolved _ fuel srv req conn ec l) by done.
    eexists. split_and!; [done|done|apply rewritten_fields|done|].
    intros h Hauth Hfind. simpl.
    rewrite authenticate_passes by done.
    unfold lookup_and_invoke. rewrite Hfind. unfold invoke. simpl.
    destruct (h (rewritten req l) conn) as [e|]; [|by eexists].
    destruct (catches_bad_alloc e); [by eexists|].
    destruct (catches_std_exception e); by eexists.
Qed.

(** C10: when no handler matches, the page of the not-found responder
    embeds [getResource()] of the request as the redirections left it:
    the last target when there were redirections, and otherwise the
    resource exactly as it came, with its trailing slash if it had one;
    not the stripped string the registry was searched with. *)
Theorem not_found_embeds_current_resource fuel srv req conn ec l :
  ec_is_set ec = false -> isValid req = true ->
  (redirect_fuel <= fuel)%nat ->
  resolves (m_redirects srv) req l ->
  auth_passes srv (rewritten req l) conn ->
  findRequestHandler (m_resources srv)
    (List.last l (stripTrailingSlash (getResource req))) = None ->
  m_not_found_handler srv = handleNotFoundRequest ->
  exists resp,
    handleRequest diagnostic_information fuel srv req conn ec
    = Some {|
        out_request := rewritten req l;
        out_conn := conn;
        out_trace :=
          (EvChangeResource <$> l) ++ auth_events srv (rewritten req l)
          ++ [EvNotFound (rewritten req l); EvSend resp connection_finish];
        out_thrown := None |}
    /\ m_status_code resp = 404%Z
    /\ m_content resp
       = NOT_FOUND_HTML_START +:+ List.last l (getResource req)
         +:+ NOT_FOUND_HTML_FINISH
    /\ (l = [] ->
        m_content resp
        = NOT_FOUND_HTML_START +:+ getResource req
          +:+ NOT_FOUND_HTML_FINISH).
Proof.
  intros Hec Hvalid Hfuel Hres Hauth Hfind Hdefault.
  rewrite (handleRequest_resolved _ fuel srv req conn ec l) by done.
  rewrite authenticate_passes by done.
  unfold lookup_and_invoke. rewrite Hfind, Hdefault.
  rewrite handleNotFoundRequest_response. simpl.
  destruct (rewritten_fields req l) as (_ & _ & _ & ->).
  eexists. split_and!; [done..|]. by intros ->.
Qed.

End DispatchClaims.

(** ** The properties at sample inputs *)

Lemma error_gate_witness :
  exists out,
    handleRequest Samples.diag 0 (make_server [] ∅ None) (Samples.get "/")
      Samples.open_conn Samples.parse_error = Some out
    /\ out_conn out = set_lifecycle Samples.open_conn LIFECYCLE_CLOSE
    /\ m_lifecycle (out_conn out) = LIFECYCLE_CLOSE
    /\ out_request out = Samples.get "/"
    /\ out_thrown out = None
    /\ ((is_open Samples.open_conn = true
         /\ ec_category Samples.parse_error = parser_error_category
         /\ out_trace out
            = [EvSetLifecycle LIFECYCLE_CLOSE; EvBadRequest (Samples.get "/")]
              ++ m_bad_request_handler (make_server [] ∅ None)
                   (Samples.get "/") (out_conn out)
         /\ (m_bad_request_handler (make_server [] ∅ None) = handleBadRequest ->
             exists resp,
               out_trace out
               = [EvSetLifecycle LIFECYCLE_CLOSE;
                  EvBadRequest (Samples.get "/");
                  EvSend resp connection_finish]
               /\ m_status_code resp = 400%Z))
        \/ (~ (is_open Samples.open_conn = true
               /\ ec_category Samples.parse_error = parser_error_category)
            /\ out_trace out = [EvSetLifecycle LIFECYCLE_CLOSE; EvFinish])).
Proof.
  apply (error_gate Samples.diag 0 (make_server [] ∅ None) (Samples.get "/")
           Samples.open_conn Samples.parse_error).
  left. reflexivity.
Defined.

(** C3, as the spec has it, fails on the text of the message: in scenario 3
    of the spec the response has status 500, but its body does not contain
    "Maximum number of redirects exceeded". *)
Lemma redirect_message_counterexample :
  exists out resp,
    handleRequest Samples.diag redirect_fuel
      (make_server [] Samples.redirect_cycle None) (Samples.get "/x")
      Samples.open_conn no_error = Some out
    /\ last (out_trace out) = Some (EvSend resp connection_finish)
    /\ m_status_code resp = 500%Z
    /\ StdString.contains "Maximum number of redirects exceeded"
         (m_content resp) = false.
Proof.
  eexists _, _. split_and!.
  - vm_compute. reflexivity.
  - reflexivity.
  - reflexivity.
  - vm_compute. reflexivity.
Qed.

Lemma redirect_bound_exceeded_witness :
  exists l resp,
    length l = 10%nat
    /\ redirect_path Samples.redirect_cycle 10 "/x" = Some l
    /\ handleRequest Samples.diag redirect_fuel
         (make_server [] Samples.redirect_cycle None) (Samples.get "/x")
         Samples.open_conn no_error
       = Some {|
           out_request := rewritten (Samples.get "/x") l;
           out_conn := Samples.open_conn;
           out_trace :=
             (EvChangeResource <$> l)
             ++ [EvServerError (rewritten (Samples.get "/x") l)
                   REDIRECTS_EXCEEDED_MSG;
                 EvSend resp connection_finish];
           out_thrown := None |}
    /\ m_status_code resp = 500%Z
    /\ StdString.contains REDIRECTS_EXCEEDED_MSG (m_content resp) = true.
Proof.
  apply (redirect_bound_exceeded Samples.diag redirect_fuel
           (make_server [] Samples.redirect_cycle None) (Samples.get "/x")
           Samples.open_conn no_error).
  - reflexivity.
  - reflexivity.
  - lia.
  - reflexivity.
  - vm_compute. eexists. reflexivity.
Defined.

(** C5, as the spec has it, fails: a handler that throws an object that is
    no [std::exception] is not caught by the envelope; the object leaves
    [handleRequest], the server-error responder is not called and no
    response is sent. *)
Lemma handler_fault_counterexample :
  exists out,
    Samples.throw_handler (Samples.get "/boom") Samples.open_conn
    = Some non_std_exception
    /\ handleRequest Samples.diag redirect_fuel
         (make_server [("/boom", Samples.throw_handler)] ∅ None)
         (Samples.get "/boom") Samples.open_conn no_error = Some out
    /\ out_thrown out = Some non_std_exception
    /\ out_trace out
       = [EvHandler Samples.throw_handler (Samples.get "/boom")]
    /\ sends (out_trace out) = 0%nat.
Proof.
  eexists. split_and!.
  - reflexivity.
  - vm_compute. reflexivity.
  - reflexivity.
  - reflexivity.
  - reflexivity.
Qed.

Lemma handler_fault_envelope_witness :
  (Samples.boom_handler (rewritten (Samples.get "/boom/") []) Samples.open_conn
   = Some bad_alloc ->
   handleRequest Samples.diag redirect_fuel
     (make_server [("/boom", Samples.boom_handler)] ∅ None)
     (Samples.get "/boom/") Samples.open_conn no_error
   = Some {|
       out_request := rewritten (Samples.get "/boom/") [];
       out_conn := Samples.open_conn;
       out_trace :=
         (EvChangeResource <$> [])
         ++ auth_events (make_server [("/boom", Samples.boom_handler)] ∅ None)
              (rewritten (Samples.get "/boom/") [])
         ++ [EvHandler Samples.boom_handler
               (rewritten (Samples.get "/boom/") [])];
       out_thrown := Some bad_alloc |})
  /\ (forall what,
        Samples.boom_handler (rewritten (Samples.get "/boom/") [])
          Samples.open_conn = Some (std_exception what) ->
        exists resp,
          handleRequest Samples.diag redirect_fuel
            (make_server [("/boom", Samples.boom_handler)] ∅ None)
            (Samples.get "/boom/") Samples.open_conn no_error
          = Some {|
              out_request := rewritten (Samples.get "/boom/") [];
              out_conn := Samples.open_conn;
              out_trace :=
                (EvChangeResource <$> [])
                ++ auth_events
                     (make_server [("/boom", Samples.boom_handler)] ∅ None)
                     (rewritten (Samples.get "/boom/") [])
                ++ [EvHandler Samples.boom_handler
                      (rewritten (Samples.get "/boom/") []);
                    EvServerError (rewritten (Samples.get "/boom/") [])
                      (Samples.diag (std_exception what));
                    EvSend resp connection_finish];
              out_thrown := None |}
          /\ m_status_code resp = 500%Z
          /\ StdString.contains (Samples.diag (std_exception what))
               (m_content resp) = true
          /\ (StdString.contains what (Samples.diag (std_exception what))
              = true ->
              StdString.contains what (m_content resp) = true))
  /\ (Samples.boom_handler (rewritten (Samples.get "/boom/") [])
        Samples.open_conn = Some non_std_exception ->
      handleRequest Samples.diag redirect_fuel
        (make_server [("/boom", Samples.boom_handler)] ∅ None)
        (Samples.get "/boom/") Samples.open_conn no_error
      = Some {|
          out_request := rewritten (Samples.get "/boom/") [];
          out_conn := Samples.open_conn;
          out_trace :=
            (EvChangeResource <$> [])
            ++ auth_events
                 (make_server [("/boom", Samples.boom_handler)] ∅ None)
                 (rewritten (Samples.get "/boom/") [])
            ++ [EvHandler Samples.boom_handler
                  (rewritten (Samples.get "/boom/") [])];
          out_thrown := Some non_std_exception |}).
Proof.
  apply (handler_fault_envelope Samples.diag redirect_fuel
           (make_server [("/boom", Samples.boom_handler)] ∅ None)
           (Samples.get "/boom/") Samples.open_conn no_error []
           Samples.boom_handler).
  - reflexivity.
  - reflexivity.
  - lia.
  - split_and!; [reflexivity|by vm_compute|reflexivity].
  - exact I.
  - reflexivity.
  - reflexivity.
Defined.

(** Scenario 6 of the spec: the handler at [/boom] throws "kaboom". *)
Example handler_throws_kaboom :
  exists out resp,
    handleRequest Samples.diag redirect_fuel
      (make_server [("/boom", Samples.boom_handler)] ∅ None)
      (Samples.get "/boom") Samples.open_conn no_error = Some out
    /\ out_thrown out = None
    /\ last (out_trace out) = Some (EvSend resp connection_finish)
    /\ m_status_code resp = 500%Z
    /\ StdString.contains "kaboom" (m_content resp) = true.
Proof.
  eexists _, _. split_and!.
  - vm_compute. reflexivity.
  - reflexivity.
  - reflexivity.
  - reflexivity.
  - vm_compute. reflexivity.
Qed.

(** An allocation failure leaves the dispatcher. *)
Example handler_throws_bad_alloc :
  out_thrown <$>
    handleRequest Samples.diag redirect_fuel
      (make_server [("/oom", Samples.oom_handler)] ∅ None)
      (Samples.get "/oom") Samples.open_conn no_error
  = Some (Some bad_alloc).
Proof. vm_compute. reflexivity. Qed.

(** C7, as the spec has it, fails: without a redirect entry, the resource
    of the request after the dispatch still has its trailing slash. *)
Lemma trailing_slash_counterexample :
  exists out,
    handleRequest Samples.diag redirect_fuel (make_server [] ∅ None)
      (Samples.get "/a/") Samples.open_conn no_error = Some out
    /\ getResource (out_request out) = "/a/"
    /\ getResource (out_request out)
       <> stripTrailingSlash (getResource (Samples.get "/a/")).
Proof.
  eexists. split_and!.
  - vm_compute. reflexivity.
  - reflexivity.
  - vm_compute. discriminate.
Qed.

Lemma trailing_slash_stripped_locally_witness :
  exists out,
    handleRequest Samples.diag redirect_fuel
      (make_server [("/a", Samples.ok_handler)] Samples.redirect_cycle None)
      (Samples.get "/a/") Samples.open_conn no_error = Some out
    /\ out_request out = Samples.get "/a/"
    /\ getResource (out_request out) = getResource (Samples.get "/a/")
    /\ (out_trace out, out_thrown out)
       = authenticate_and_dispatch Samples.diag
           (make_server [("/a", Samples.ok_handler)] Samples.redirect_cycle
              None)
           (stripTrailingSlash (getResource (Samples.get "/a/")))
           (Samples.get "/a/") Samples.open_conn.
Proof.
  apply (trailing_slash_stripped_locally Samples.diag redirect_fuel
           (make_server [("/a", Samples.ok_handler)] Samples.redirect_cycle
              None)
           (Samples.get "/a/") Samples.open_conn no_error).
  - reflexivity.
  - reflexivity.
  - lia.
  - vm_compute. reflexivity.
Defined.

Lemma redirect_chain_resolves :
  resolves Samples.redirect_chain (Samples.get "/a/") ["/b"; "/c"].
Proof. split_and!; [reflexivity|by vm_compute|reflexivity]. Qed.

Lemma redirect_chain_keeps_original_witness :
  (exists st,
      redirect_loop redirect_fuel Samples.redirect_chain
        (redirect_init Samples.redirect_chain (Samples.get "/a/"))
      = Some (LoopExit st)
      /\ rewrites st = EvChangeResource <$> ["/b"; "/c"]
      /\ http_request st = rewritten (Samples.get "/a/") ["/b"; "/c"]
      /\ num_redirects st = Z.of_nat (length ["/b"; "/c"]))
  /\ (forall l', l' `prefix_of` ["/b"; "/c"] ->
        getOriginalResource (rewritten (Samples.get "/a/") l')
        = getOriginalResource (Samples.get "/a/")
        /\ getMethod (rewritten (Samples.get "/a/") l')
           = getMethod (Samples.get "/a/")
        /\ isValid (rewritten (Samples.get "/a/") l')
           = isValid (Samples.get "/a/")
        /\ getResource (rewritten (Samples.get "/a/") l')
           = List.last l' (getResource (Samples.get "/a/")))
  /\ (exists out,
        handleRequest Samples.diag redirect_fuel
          (make_server [("/c", Samples.ok_handler)] Samples.redirect_chain
             None)
          (Samples.get "/a/") Samples.open_conn no_error = Some out
        /\ out_request out = rewritten (Samples.get "/a/") ["/b"; "/c"]
        /\ getOriginalResource (out_request out)
           = getOriginalResource (Samples.get "/a/")
        /\ out_trace out
           = (EvChangeResource <$> ["/b"; "/c"])
             ++ (authenticate_and_dispatch Samples.diag
                   (make_server [("/c", Samples.ok_handler)]
                      Samples.redirect_chain None)
                   (List.last ["/b"; "/c"]
                      (stripTrailingSlash (getResource (Samples.get "/a/"))))
                   (rewritten (Samples.get "/a/") ["/b"; "/c"])
                   Samples.open_conn).1
        /\ (forall h,
              auth_passes
                (make_server [("/c", Samples.ok_handler)]
                   Samples.redirect_chain None)
                (rewritten (Samples.get "/a/") ["/b"; "/c"])
                Samples.open_conn ->
              findRequestHandler
                (m_resources
                   (make_server [("/c", Samples.ok_handler)]
                      Samples.redirect_chain None))
                (List.last ["/b"; "/c"]
                   (stripTrailingSlash (getResource (Samples.get "/a/"))))
              = Some h ->
              exists evs,
                out_trace out
                = (EvChangeResource <$> ["/b"; "/c"])
                  ++ auth_events
                       (make_server [("/c", Samples.ok_handler)]
                          Samples.redirect_chain None)
                       (rewritten (Samples.get "/a/") ["/b"; "/c"])
                  ++ EvHandler h (rewritten (Samples.get "/a/") ["/b"; "/c"])
                     :: evs)).
Proof.
  apply (redirect_chain_keeps_original Samples.diag redirect_fuel
           (make_server [("/c", Samples.ok_handler)] Samples.redirect_chain
              None)
           (Samples.get "/a/") Samples.open_conn no_error ["/b"; "/c"]).
  - reflexivity.
  - reflexivity.
  - lia.
  - exact redirect_chain_resolves.
Defined.

(** A request redirected twice reaches its handler with the resource of
    the last target and the original resource as it came. *)
Example redirected_request_at_handler :
  out_trace <$>
    handleRequest Samples.diag redirect_fuel
      (make_server [("/c", Samples.ok_handler)] Samples.redirect_chain None)
      (Samples.get "/a/") Samples.open_conn no_error
  = Some [EvChangeResource "/b"; EvChangeResource "/c";
          EvHandler Samples.ok_handler
            {| m_method := "GET"; m_resource := "/c";
               m_original_resource := "/a/"; m_is_valid := true |}].
Proof. vm_compute. reflexivity. Qed.

Lemma not_found_embeds_current_resource_witness :
  exists resp,
    handleRequest Samples.diag redirect_fuel
      (make_server [] Samples.redirect_chain None) (Samples.get "/a/")
      Samples.open_conn no_error
    = Some {|
        out_request := rewritten (Samples.get "/a/") ["/b"; "/c"];
        out_conn := Samples.open_conn;
        out_trace :=
          (EvChangeResource <$> ["/b"; "/c"])
          ++ auth_events (make_server [] Samples.redirect_chain None)
               (rewritten (Samples.get "/a/") ["/b"; "/c"])
          ++ [EvNotFound (rewritten (Samples.get "/a/") ["/b"; "/c"]);
              EvSend resp connection_finish];
        out_thrown := None |}
    /\ m_status_code resp = 404%Z
    /\ m_content resp
       = NOT_FOUND_HTML_START
         +:+ List.last ["/b"; "/c"] (getResource (Samples.get "/a/"))
         +:+ NOT_FOUND_HTML_FINISH
    /\ (["/b"; "/c"] = [] ->
        m_content resp
        = NOT_FOUND_HTML_START +:+ getResource (Samples.get "/a/")
          +:+ NOT_FOUND_HTML_FINISH).
Proof.
  apply (not_found_embeds_current_resource Samples.diag redirect_fuel
           (make_server [] Samples.redirect_chain None) (Samples.get "/a/")
           Samples.open_conn no_error ["/b"; "/c"]).
  - reflexivity.
  - reflexivity.
  - lia.
  - exact redirect_chain_resolves.
  - exact I.
  - reflexivity.
  - reflexivity.
Defined.

(** Without redirection, the page names the resource with the trailing
    slash the client sent, not the stripped [/zzz] the registry was searched
    with. *)
Example not_found_keeps_trailing_slash :
  exists out resp,
    handleRequest Samples.diag redirect_fuel
      (make_server [("/a", Samples.ok_handler)] ∅ None) (Samples.get "/zzz/")
      Samples.open_conn no_error = Some out
    /\ last (out_trace out) = Some (EvSend resp connection_finish)
    /\ m_status_code resp = 404%Z
    /\ StdString.contains "The requested URL /zzz/ was not found"
         (m_content resp) = true.
Proof.
  eexists _, _. split_and!.
  - vm_compute. reflexivity.
  - reflexivity.
  - reflexivity.
  - vm_compute. reflexivity.
Qed.

(** Scenario 4 of the spec: a parse error on an open connection. *)
Example malformed_request :
  handleRequest Samples.diag 0 (make_server [] ∅ None) (Samples.get "/")
    Samples.open_conn Samples.parse_error
  = Some {|
      out_request := Samples.get "/";
      out_conn := {| m_lifecycle := LIFECYCLE_CLOSE; m_is_open := true |};
      out_trace :=
        [EvSetLifecycle LIFECYCLE_CLOSE; EvBadRequest (Samples.get "/");
         EvSend {| m_status_code := 400;
                   m_status_message := RESPONSE_MESSAGE_BAD_REQUEST;
                   m_content := BAD_REQUEST_HTML |} connection_finish];
      out_thrown := None |}.
Proof. reflexivity. Qed.

(** Scenario 5 of the spec: an error that is not the parser's. *)
Example read_timeout :
  out_trace <$>
    handleRequest Samples.diag 0 (make_server [] ∅ None) (Samples.get "/")
      Samples.open_conn {| ec_value := 125; ec_category := system_category |}
  = Some [EvSetLifecycle LIFECYCLE_CLOSE; EvFinish].
Proof. reflexivity. Qed.

(** * Further properties of the code *)

(** ** The registry under lookups, additions and removals *)

Section RegistryMore.
Context {V : Type}.
Implicit Types (m : list (string * V)) (k key resource : string) (v h : V).

(** Two keys of one length that match one resource are one key. *)
Lemma segment_match_same_length key key' resource :
  segment_match key resource -> segment_match key' resource ->
  String.length key = String.length key' -> key = key'.
Proof.
  intros [rest Hrest]%segment_match_prefix
    [rest' Hrest']%segment_match_prefix Hlen.
  destruct (prefixes_comparable key key' rest rest') as [x ->];
    [congruence|lia|].
  rewrite app_length in Hlen.
  destruct x; [by rewrite app_empty_r|simpl in Hlen; lia].
Qed.

Lemma insert_elem_inv e k v m :
  e ∈ StdMap.insert k v m -> e ∈ m \/ e = (k, v).
Proof.
  induction m as [|[k0 v0] m IH]; simpl.
  - intros ->%list_elem_of_singleton. by right.
  - destruct (String.compare k k0); [by left| |].
    + intros [->|He]%elem_of_cons; [by right|by left].
    + intros [->|He]%elem_of_cons; [left; apply list_elem_of_here|].
      destruct (IH He) as [?|?]; [left|by right].
      by apply list_elem_of_further.
Qed.

Lemma elem_of_erase e k m : e ∈ StdMap.erase k m <-> e ∈ m /\ e.1 <> k.
Proof.
  induction m as [|[k0 v0] m IH]; simpl.
  - rewrite elem_of_nil. tauto.
  - destruct (String.eqb_spec k k0) as [->|Hne].
    + rewrite IH, elem_of_cons. split; [tauto|].
      intros [[->|He] Hk]; [done|tauto].
    + rewrite !elem_of_cons, IH. split.
      * intros [->|[He Hk]]; [split; [by left|simpl; congruence]|tauto].
      * intros [[->|He] Hk]; [by left|tauto].
Qed.

Lemma find_None_not_elem_of k m :
  StdMap.find k m = None <-> forall v, (k, v) ∉ m.
Proof.
  induction m as [|[k0 v0] m IH]; simpl.
  - split; [intros _ v; apply not_elem_of_nil|done].
  - destruct (String.eqb_spec k k0) as [->|Hne].
    + split; [done|]. intros H. destruct (H v0). apply list_elem_of_here.
    + rewrite IH. split.
      * intros H v [[= ? ?]|Hin]%elem_of_cons; [done|by apply (H v)].
      * intros H v Hin. apply (H v). by apply list_elem_of_further.
Qed.

Lemma erase_absent k m : StdMap.find k m = None -> StdMap.erase k m = m.
Proof.
  induction m as [|[k0 v0] m IH]; simpl; [done|].
  destruct (String.eqb k k0); [done|]. intros H. by rewrite IH.
Qed.

Lemma find_erase k m : StdMap.find k (StdMap.erase k m) = None.
Proof.
  induction m as [|[k0 v0] m IH]; simpl; [done|].
  destruct (String.eqb k k0) eqn:Heq; [done|]. simpl. by rewrite Heq.
Qed.

(** From a result of the lookup to the longest matching key. *)
Lemma lookup_Some_elim m resource h :
  StdMap.sorted m -> findRequestHandler m resource = Some h ->
  exists key,
    (key, h) ∈ m /\ segment_match key resource
    /\ forall key' h', (key', h') ∈ m -> segment_match key' resource ->
         (String.length key' <= String.length key)%nat.
Proof.
  intros Hs Hfind.
  destruct (findRequestHandler_Some_inv m resource h Hs Hfind)
    as (key0 & Hin0 & Hm0).
  destruct (findRequestHandler_longest m resource key0 h Hs Hin0 Hm0)
    as (key & h1 & Hin & Hm & Hfind1 & Hmax).
  exists key. rewrite Hfind in Hfind1. by injection Hfind1 as <-.
Qed.

(** From the longest matching key to the result of the lookup. *)
Lemma lookup_Some_intro m resource key h :
  StdMap.sorted m -> (key, h) ∈ m -> segment_match key resource ->
  (forall key' h', (key', h') ∈ m -> segment_match key' resource ->
     (String.length key' <= String.length key)%nat) ->
  findRequestHandler m resource = Some h.
Proof.
  intros Hs Hin Hm Hmax.
  destruct (findRequestHandler_longest m resource key h Hs Hin Hm)
    as (key1 & h1 & Hin1 & Hm1 & -> & Hmax1).
  assert (key1 = key) as ->.
  { apply (segment_match_same_length _ _ resource); [done..|].
    pose proof (Hmax _ _ Hin1 Hm1). pose proof (Hmax1 _ _ Hin Hm). lia. }
  f_equal. by eapply sorted_unique.
Qed.

Lemma lookup_None_elim m resource key h :
  StdMap.sorted m -> findRequestHandler m resource = None ->
  (key, h) ∈ m -> ~ segment_match key resource.
Proof.
  intros Hs Hnone Hin Hm.
  destruct (findRequestHandler_longest m resource key h Hs Hin Hm)
    as (? & ? & _ & _ & Hfind & _). congruence.
Qed.

Lemma lookup_None_intro m resource :
  StdMap.sorted m ->
  (forall key h, (key, h) ∈ m -> ~ segment_match key resource) ->
  findRequestHandler m resource = None.
Proof.
  intros Hs Hno.
  destruct (findRequestHandler m resource) as [h|] eqn:Hfind; [|done].
  destruct (findRequestHandler_Some_inv m resource h Hs Hfind)
    as (key & Hin & Hm). by destruct (Hno key h).
Qed.

(** X1: on a sorted registry the lookup returns [h] exactly when [h] is
    stored under a key that matches the resource at a segment boundary and
    that no other matching key exceeds in length. *)
Theorem findRequestHandler_Some_iff m resource h :
  StdMap.sorted m ->
  (findRequestHandler m resource = Some h <->
   exists key,
     (key, h) ∈ m /\ segment_match key resource
     /\ forall key' h', (key', h') ∈ m -> segment_match key' resource ->
          (String.length key' <= String.length key)%nat).
Proof.
  intros Hs. split.
  - by apply lookup_Some_elim.
  - intros (key & Hin & Hm & Hmax). by apply (lookup_Some_intro m _ key).
Qed.

(** X2: on a sorted registry the lookup fails exactly when no registered
    key matches the resource at a segment boundary; on the empty registry
    it always fails. *)
Theorem findRequestHandler_None_iff m resource :
  StdMap.sorted m ->
  (findRequestHandler m resource = None <->
   forall key h, (key, h) ∈ m -> ~ segment_match key resource).
Proof.
  intros Hs. split.
  - intros Hnone key h. by apply lookup_None_elim.
  - by apply lookup_None_intro.
Qed.

(** X3: a handler added under a key that was free is the one returned for
    every resource that the key matches and that no registered key matches
    with a greater length. *)
Theorem addResource_takes_precedence m K h resource :
  StdMap.sorted m ->
  StdMap.find (stripTrailingSlash K) m = None ->
  segment_match (stripTrailingSlash K) resource ->
  (forall key' h', (key', h') ∈ m -> segment_match key' resource ->
     (String.length key' <= String.length (stripTrailingSlash K))%nat) ->
  findRequestHandler (addResource K h m) resource = Some h.
Proof.
  intros Hs Hfree Hm Hmax. unfold addResource.
  apply (lookup_Some_intro _ _ (stripTrailingSlash K));
    [by apply sorted_insert|by apply insert_new|done|].
  intros key' h' [Hin|[= -> ->]]%insert_elem_inv Hm'; [eauto|done].
Qed.

(** X4: adding a handler under a key does not change the lookup of a
    resource that the key does not match. *)
Theorem addResource_frame m K h resource :
  StdMap.sorted m ->
  ~ segment_match (stripTrailingSlash K) resource ->
  findRequestHandler (addResource K h m) resource
  = findRequestHandler m resource.
Proof.
  intros Hs Hno. unfold addResource.
  pose proof (sorted_insert (stripTrailingSlash K) h m Hs) as Hs'.
  destruct (findRequestHandler m resource) as [h0|] eqn:Hfind.
  - apply lookup_Some_elim in Hfind as (key & Hin & Hm & Hmax); [|done].
    apply (lookup_Some_intro _ _ key); [done|by apply insert_mono|done|].
    intros key' h' [Hin'|[= -> ->]]%insert_elem_inv Hm'; [eauto|done].
  - apply lookup_None_intro; [done|].
    intros key h' [Hin|[= -> ->]]%insert_elem_inv; [|done].
    by apply (lookup_None_elim m resource key h').
Qed.

(** X5: after the removal of a key, the lookup returns [h] exactly when [h]
    is stored under another key that matches the resource and that no
    remaining matching key exceeds in length: the resources of the removed
    key fall back to the next shorter prefix, or to no handler. *)
Theorem removeResource_falls_back m K resource h :
  StdMap.sorted m ->
  (findRequestHandler (removeResource K m) resource = Some h <->
   exists key,
     key <> stripTrailingSlash K /\ (key, h) ∈ m
     /\ segment_match key resource
     /\ forall key' h', (key', h') ∈ m -> key' <> stripTrailingSlash K ->
          segment_match key' resource ->
          (String.length key' <= String.length key)%nat).
Proof.
  intros Hs. unfold removeResource.
  pose proof (sorted_erase (stripTrailingSlash K) m Hs) as Hs'.
  split.
  - intros (key & [Hin Hne]%elem_of_erase & Hm & Hmax)%lookup_Some_elim;
      [|done].
    exists key. split_and!; [done..|].
    intros key' h' Hin' Hne' Hm'. apply (Hmax key' h'); [|done].
    by apply elem_of_erase.
  - intros (key & Hne & Hin & Hm & Hmax).
    apply (lookup_Some_intro _ _ key); [done|by apply elem_of_erase|done|].
    intros key' h' [Hin' Hne']%elem_of_erase Hm'. eauto.
Qed.

(** X6: removing a key does not change the lookup of a resource that the
    key does not match. *)
Theorem removeResource_frame m K resource :
  StdMap.sorted m ->
  ~ segment_match (stripTrailingSlash K) resource ->
  findRequestHandler (removeResource K m) resource
  = findRequestHandler m resource.
Proof.
  intros Hs Hno. unfold removeResource.
  pose proof (sorted_erase (stripTrailingSlash K) m Hs) as Hs'.
  destruct (findRequestHandler m resource) as [h0|] eqn:Hfind.
  - apply lookup_Some_elim in Hfind as (key & Hin & Hm & Hmax); [|done].
    apply (lookup_Some_intro _ _ key); [done| |done|].
    + apply elem_of_erase. split; [done|]. simpl. by intros ->.
    + intros key' h' [Hin' _]%elem_of_erase Hm'. eauto.
  - apply lookup_None_intro; [done|].
    intros key h' [Hin _]%elem_of_erase.
    by apply (lookup_None_elim m resource key h').
Qed.

(** X7: adding a handler under a free key and removing the key again gives
    the registry back as it was. *)
Theorem removeResource_addResource m K h :
  StdMap.find (stripTrailingSlash K) m = None ->
  removeResource K (addResource K h m) = m.
Proof.
  unfold removeResource, addResource. generalize (stripTrailingSlash K).
  intros k. induction m as [|[k0 v0] m IH]; simpl.
  - by rewrite String.eqb_refl.
  - destruct (String.eqb_spec k k0) as [->|Hne]; [done|]. intros Hfree.
    destruct (String.compare k k0) eqn:Hcmp; simpl.
    + by apply string_compare_eq in Hcmp.
    + rewrite String.eqb_refl.
      destruct (String.eqb_spec k k0); [done|]. by rewrite erase_absent.
    + destruct (String.eqb_spec k k0); [done|]. by rewrite IH.
Qed.

(** X8: a handler is replaced by removing the key and adding it again:
    the lookup of the key then returns the new handler, whatever the key
    had before. *)
Theorem addResource_after_removeResource m K h :
  StdMap.sorted m ->
  findRequestHandler (addResource K h (removeResource K m))
    (stripTrailingSlash K) = Some h.
Proof.
  intros Hs. unfold addResource, removeResource.
  apply findRequestHandler_exact.
  - by apply sorted_insert, sorted_erase.
  - apply insert_new, find_erase.
Qed.

End RegistryMore.

Lemma findRequestHandler_Some_iff_witness :
  findRequestHandler Samples.three_resources "/a/bb" = Some 1 <->
  exists key,
    (key, 1) ∈ Samples.three_resources /\ segment_match key "/a/bb"
    /\ forall key' h', (key', h') ∈ Samples.three_resources ->
         segment_match key' "/a/bb" ->
         (String.length key' <= String.length key)%nat.
Proof.
  apply (findRequestHandler_Some_iff Samples.three_resources "/a/bb" 1).
  exact three_resources_sorted.
Defined.

Lemma findRequestHandler_None_iff_witness :
  findRequestHandler [("/a", 1); ("/b", 2)] "/ab" = None <->
  forall key h, (key, h) ∈ [("/a", 1); ("/b", 2)] ->
                ~ segment_match key "/ab".
Proof.
  apply (findRequestHandler_None_iff [("/a", 1); ("/b", 2)] "/ab").
  unfold StdMap.sorted. repeat constructor.
Defined.

Lemma addResource_takes_precedence_witness :
  findRequestHandler (addResource "/a/b/c/" 9 Samples.three_resources)
    "/a/b/c/d" = Some 9.
Proof.
  apply (addResource_takes_precedence Samples.three_resources "/a/b/c/" 9
           "/a/b/c/d").
  - exact three_resources_sorted.
  - reflexivity.
  - right. by exists "d".
  - intros key' h' Hin _. vm_compute in Hin.
    repeat (apply elem_of_cons in Hin as [[= -> ->]|Hin]; [simpl; lia|]).
    by apply elem_of_nil in Hin.
Defined.

Lemma addResource_frame_witness :
  findRequestHandler (addResource "/a/b/c" 9 Samples.three_resources) "/a/bb"
  = findRequestHandler Samples.three_resources "/a/bb".
Proof.
  apply (addResource_frame Samples.three_resources "/a/b/c" 9 "/a/bb").
  - exact three_resources_sorted.
  - intros [Heq|[rest Heq]]; vm_compute in Heq; discriminate.
Defined.

Lemma removeResource_falls_back_witness :
  findRequestHandler (removeResource "/a/b/" Samples.three_resources)
    "/a/b/c" = Some 1 <->
  exists key,
    key <> stripTrailingSlash "/a/b/" /\ (key, 1) ∈ Samples.three_resources
    /\ segment_match key "/a/b/c"
    /\ forall key' h', (key', h') ∈ Samples.three_resources ->
         key' <> stripTrailingSlash "/a/b/" ->
         segment_match key' "/a/b/c" ->
         (String.length key' <= String.length key)%nat.
Proof.
  apply (removeResource_falls_back Samples.three_resources "/a/b/" "/a/b/c" 1).
  exact three_resources_sorted.
Defined.

(** The removal of [/a/b] sends [/a/b/c] to the handler of [/a]. *)
Example removal_uncovers_shorter_prefix :
  findRequestHandler (removeResource "/a/b/" Samples.three_resources) "/a/b/c"
  = Some 1.
Proof. reflexivity. Qed.

Lemma removeResource_frame_witness :
  findRequestHandler (removeResource "/a/b" Samples.three_resources) "/a/bb"
  = findRequestHandler Samples.three_resources "/a/bb".
Proof.
  apply (removeResource_frame Samples.three_resources "/a/b" "/a/bb").
  - exact three_resources_sorted.
  - intros [Heq|[rest Heq]]; vm_compute in Heq; discriminate.
Defined.

Lemma removeResource_addResource_witness :
  removeResource "/z/" (addResource "/z/" 9 Samples.three_resources)
  = Samples.three_resources.
Proof.
  apply (removeResource_addResource Samples.three_resources "/z/" 9).
  reflexivity.
Defined.

Lemma addResource_after_removeResource_witness :
  findRequestHandler
    (addResource "/a" 9 (removeResource "/a" Samples.three_resources))
    (stripTrailingSlash "/a") = Some 9.
Proof.
  apply (addResource_after_removeResource Samples.three_resources "/a" 9).
  exact three_resources_sorted.
Defined.

(** ** The redirect table *)

(** X9: [addRedirect] never changes an entry that is there: a second
    redirection from the same resource is dropped; a redirection from a
    resource that had none is stored with both names stripped; and no other
    entry changes. *)
Theorem addRedirect_keeps_first (t : gmap string string) (a b c : string) :
  addRedirect a c (addRedirect a b t) = addRedirect a b t
  /\ (forall target,
        t !! stripTrailingSlash a = Some target -> addRedirect a b t = t)
  /\ (t !! stripTrailingSlash a = None ->
      addRedirect a b t !! stripTrailingSlash a
      = Some (stripTrailingSlash b))
  /\ (forall r, r <> stripTrailingSlash a -> addRedirect a b t !! r = t !! r).
Proof.
  unfold addRedirect. split_and!.
  - destruct (t !! stripTrailingSlash a) as [target|] eqn:Ha.
    + by rewrite Ha.
    + by rewrite lookup_insert_eq.
  - by intros target ->.
  - intros ->. by rewrite lookup_insert_eq.
  - intros r Hr. destruct (t !! stripTrailingSlash a); [done|].
    by rewrite lookup_insert_ne.
Qed.

Section RedirectMore.
Context (redirects : gmap string string).
Implicit Types (l : list string) (r : string).

Lemma last_app_string l1 l2 r :
  List.last (l1 ++ l2) r = List.last l2 (List.last l1 r).
Proof.
  revert r. induction l1 as [|t l1 IH]; intros r; [done|].
  change ((t :: l1) ++ l2) with (t :: (l1 ++ l2)).
  by rewrite !last_cons, IH.
Qed.

(** Paths compose. *)
Lemma redirect_path_app a b r l1 l2 :
  redirect_path redirects a r = Some l1 ->
  redirect_path redirects b (List.last l1 r) = Some l2 ->
  redirect_path redirects (a + b) r = Some (l1 ++ l2).
Proof.
  revert r l1. induction a as [|a IH]; intros r l1.
  - by intros [= <-].
  - simpl. destruct (redirects !! r) as [t|]; [|done].
    intros (l & Hl & ->)%fmap_Some. rewrite last_cons. intros Hl2.
    by rewrite (IH _ _ Hl Hl2).
Qed.

(** A path can be cut short. *)
Lemma redirect_path_shorter a b r :
  is_Some (redirect_path redirects (a + b) r) ->
  is_Some (redirect_path redirects a r).
Proof.
  revert r. induction a as [|a IH]; intros r; [by eexists|].
  simpl. destruct (redirects !! r) as [t|]; [|done].
  intros [l (l' & Hl' & _)%fmap_Some].
  destruct (IH t) as [l0 ->]; [by eexists|]. by eexists.
Qed.

(** A cycle can be followed for ever. *)
Lemma redirect_cycle_unbounded cyc r (k : nat) :
  cyc <> [] ->
  redirect_path redirects (length cyc) r = Some cyc ->
  List.last cyc r = r ->
  is_Some (redirect_path redirects k r).
Proof.
  intros Hne Hcyc Hback.
  assert (forall j, exists l,
             redirect_path redirects (j * length cyc) r = Some l
             /\ List.last l r = r) as Hturns.
  { induction j as [|j (l & Hl & Hlast)]; [by exists []|].
    exists (cyc ++ l). split.
    - simpl. apply redirect_path_app; [done|]. by rewrite Hback.
    - by rewrite last_app_string, Hback. }
  destruct (Hturns k) as (l & Hl & _).
  apply (redirect_path_shorter k (k * length cyc - k)).
  replace (k + (k * length cyc - k))%nat with (k * length cyc)%nat;
    [by eexists|].
  destruct cyc; [done|]. simpl. nia.
Qed.

(** A path that leads to a cycle can be followed for ever. *)
Lemma redirect_into_cycle_unbounded pre cyc r (k : nat) :
  redirect_path redirects (length pre) r = Some pre ->
  cyc <> [] ->
  redirect_path redirects (length cyc) (List.last pre r) = Some cyc ->
  List.last cyc (List.last pre r) = List.last pre r ->
  is_Some (redirect_path redirects k r).
Proof.
  intros Hpre Hne Hcyc Hback.
  destruct (redirect_cycle_unbounded cyc (List.last pre r) k Hne Hcyc Hback)
    as [l Hl].
  apply (redirect_path_shorter k (length pre)).
  rewrite Nat.add_comm. rewrite (redirect_path_app _ _ _ _ _ Hpre Hl).
  by eexists.
Qed.

End RedirectMore.

Section DispatchMore.
Context (diagnostic_information : exn -> string).
Implicit Types (srv : HTTPServer) (req : HTTPRequest) (conn : connection)
  (ec : error_code) (l : list string).

(** X10: when the redirections from the requested resource lead into a
    cycle (the resource redirected to itself, two resources redirected to
    each other, a chain that ends in such a loop), every valid request for
    it is rewritten ten times and then given to the server-error
    responder: neither the authenticator nor a handler is called. *)
Theorem redirect_cycle_gives_server_error fuel srv req conn ec pre cyc :
  ec_is_set ec = false -> isValid req = true ->
  (redirect_fuel <= fuel)%nat ->
  redirect_path (m_redirects srv) (length pre)
    (stripTrailingSlash (getResource req)) = Some pre ->
  cyc <> [] ->
  redirect_path (m_redirects srv) (length cyc)
    (List.last pre (stripTrailingSlash (getResource req))) = Some cyc ->
  List.last cyc (List.last pre (stripTrailingSlash (getResource req)))
  = List.last pre (stripTrailingSlash (getResource req)) ->
  exists l,
    length l = 10%nat
    /\ handleRequest diagnostic_information fuel srv req conn ec
       = Some {|
           out_request := rewritten req l;
           out_conn := conn;
           out_trace :=
             (EvChangeResource <$> l)
             ++ [EvServerError (rewritten req l) REDIRECTS_EXCEEDED_MSG]
             ++ m_server_error_handler srv (rewritten req l) conn
                  REDIRECTS_EXCEEDED_MSG;
           out_thrown := None |}.
Proof.
  intros Hec Hvalid Hfuel Hpre Hne Hcyc Hback.
  destruct (handleRequest_exceeded diagnostic_information fuel srv req conn
              ec Hec Hvalid Hfuel) as (l & Hl & ->).
  { by eapply redirect_into_cycle_unbounded. }
  exists l. split; [|done]. by apply redirect_path_length in Hl.
Qed.

(** X11: once [addRedirect(from, to)] has stored its entry (the source had
    none, the target has none and is another resource), a valid request for
    [from] is rewritten once and handled by the handler that the registry
    gives for [to]; the handler sees [to] as the resource of the request,
    and the original resource as it came. *)
Theorem redirected_request_reaches_target fuel srv req conn ec t from to h :
  ec_is_set ec = false -> isValid req = true ->
  (redirect_fuel <= fuel)%nat ->
  m_redirects srv = addRedirect from to t ->
  t !! stripTrailingSlash from = None ->
  t !! stripTrailingSlash to = None ->
  stripTrailingSlash to <> stripTrailingSlash from ->
  stripTrailingSlash (getResource req) = stripTrailingSlash from ->
  auth_passes srv (changeResource req (stripTrailingSlash to)) conn ->
  findRequestHandler (m_resources srv) (stripTrailingSlash to) = Some h ->
  h (changeResource req (stripTrailingSlash to)) conn = None ->
  handleRequest diagnostic_information fuel srv req conn ec
  = Some {|
      out_request := changeResource req (stripTrailingSlash to);
      out_conn := conn;
      out_trace :=
        [EvChangeResource (stripTrailingSlash to)]
        ++ auth_events srv (changeResource req (stripTrailingSlash to))
        ++ [EvHandler h (changeResource req (stripTrailingSlash to))];
      out_thrown := None |}
  /\ getOriginalResource (changeResource req (stripTrailingSlash to))
     = getOriginalResource req.
Proof.
  intros Hec Hvalid Hfuel Htable Hfrom Hto Hne Hreq Hauth Hfind Hret.
  split; [|done].
  assert (resolves (m_redirects srv) req [stripTrailingSlash to]) as Hres.
  { unfold resolves. rewrite Hreq, Htable. unfold addRedirect.
    rewrite Hfrom. simpl. rewrite lookup_insert_eq. simpl.
    split_and!; [done|bound_lia|by rewrite lookup_insert_ne]. }
  rewrite (handleRequest_resolved _ fuel srv req conn ec
             [stripTrailingSlash to]) by done.
  change (rewritten req [stripTrailingSlash to])
    with (changeResource req (stripTrailingSlash to)).
  change (List.last [stripTrailingSlash to]
            (stripTrailingSlash (getResource req)))
    with (stripTrailingSlash to).
  rewrite authenticate_passes by done.
  unfold lookup_and_invoke. rewrite Hfind.
  by rewrite invoke_returns.
Qed.

(** X12: when an authenticator is registered and refuses the request, the
    dispatcher stops there: after the rewrites of the redirections it calls
    the authenticator and nothing else, no lookup, no handler, no
    responder, and nothing is thrown. *)
Theorem authentication_refusal_stops fuel srv req conn ec l auth :
  ec_is_set ec = false -> isValid req = true ->
  (redirect_fuel <= fuel)%nat ->
  resolves (m_redirects srv) req l ->
  m_auth_ptr srv = Some auth ->
  auth (rewritten req l) conn = false ->
  handleRequest diagnostic_information fuel srv req conn ec
  = Some {|
      out_request := rewritten req l;
      out_conn := conn;
      out_trace :=
        (EvChangeResource <$> l) ++ [EvAuth (rewritten req l) false];
      out_thrown := None |}.
Proof.
  intros Hec Hvalid Hfuel Hres Hptr Hrefuse.
  rewrite (handleRequest_resolved _ fuel srv req conn ec l) by done.
  unfold authenticate_and_dispatch. by rewrite Hptr, Hrefuse.
Qed.

(** X13: when the handler found for the request returns, the dispatcher
    does nothing after the call: no response, no [finish()], no change of
    the lifecycle of the connection. *)
Theorem handler_return_ends_dispatch fuel srv req conn ec l h :
  ec_is_set ec = false -> isValid req = true ->
  (redirect_fuel <= fuel)%nat ->
  resolves (m_redirects srv) req l ->
  auth_passes srv (rewritten req l) conn ->
  findRequestHandler (m_resources srv)
    (List.last l (stripTrailingSlash (getResource req))) = Some h ->
  h (rewritten req l) conn = None ->
  handleRequest diagnostic_information fuel srv req conn ec
  = Some {|
      out_request := rewritten req l;
      out_conn := conn;
      out_trace :=
        (EvChangeResource <$> l) ++ auth_events srv (rewritten req l)
        ++ [EvHandler h (rewritten req l)];
      out_thrown := None |}.
Proof.
  intros Hec Hvalid Hfuel Hres Hauth Hfind Hret.
  rewrite (handleRequest_resolved _ fuel srv req conn ec l) by done.
  rewrite authenticate_passes by done.
  unfold lookup_and_invoke. rewrite Hfind. by rewrite invoke_returns.
Qed.

(** X14: an object thrown by the handler that is no [std::exception]
    passes both [catch] clauses: it leaves [handleRequest] like an
    allocation failure, and the server-error responder is not called. *)
Theorem non_std_exception_propagates fuel srv req conn ec l h :
  ec_is_set ec = false -> isValid req = true ->
  (redirect_fuel <= fuel)%nat ->
  resolves (m_redirects srv) req l ->
  auth_passes srv (rewritten req l) conn ->
  findRequestHandler (m_resources srv)
    (List.last l (stripTrailingSlash (getResource req))) = Some h ->
  h (rewritten req l) conn = Some non_std_exception ->
  handleRequest diagnostic_information fuel srv req conn ec
  = Some {|
      out_request := rewritten req l;
      out_conn := conn;
      out_trace :=
        (EvChangeResource <$> l) ++ auth_events srv (rewritten req l)
        ++ [EvHandler h (rewritten req l)];
      out_thrown := Some non_std_exception |}.
Proof.
  intros Hec Hvalid Hfuel Hres Hauth Hfind Hthrow.
  rewrite (handleRequest_resolved _ fuel srv req conn ec l) by done.
  rewrite authenticate_passes by done.
  unfold lookup_and_invoke. rewrite Hfind.
  by rewrite invoke_non_std_exception.
Qed.

End DispatchMore.

(** ** One answer per request *)

Section AnswerFacts.
Implicit Types (pre suf trace : list event).



Lemma rewrites_in_app pre suf :
  rewrites_in (pre ++ suf) = (rewrites_in pre + rewrites_in suf)%nat.
Proof. unfold rewrites_in. by rewrite List.filter_app, length_app. Qed.

(** The rewrites neither send a response nor finish the connection, and
    each of them counts for one. *)
Lemma changes_quiet (l : list string) :
  sends (EvChangeResource <$> l) = 0%nat
  /\ finishes (EvChangeResource <$> l) = 0%nat
  /\ rewrites_in (EvChangeResource <$> l) = length l.
Proof.
  induction l as [|t l (IH1 & IH2 & IH3)]; [done|].
  split_and!; [done|done|]. unfold rewrites_in in *. simpl.
  f_equal. exact IH3.
Qed.



End AnswerFacts.


Section OneAnswer.
Context (diagnostic_information : exn -> string).
Implicit Types (srv : HTTPServer) (req : HTTPRequest) (conn : connection)
  (ec : error_code).


End OneAnswer.

(** ** The pages of the responders *)

Lemma handleForbiddenRequest_content req conn error_msg :
  HeaderWriter.content (handleForbiddenRequest req conn error_msg)
  = FORBIDDEN_HTML_START +:+ getResource req +:+ FORBIDDEN_HTML_MIDDLE
    +:+ error_msg +:+ FORBIDDEN_HTML_FINISH.
Proof.
  unfold handleForbiddenRequest, HeaderWriter.write, HeaderWriter.create,
    HeaderWriter.setStatusCode, HeaderWriter.setStatusMessage.
  cbn [HeaderWriter.content].
  change ("" +:+ FORBIDDEN_HTML_START) with FORBIDDEN_HTML_START.
  by rewrite !app_assoc.
Qed.

Lemma handleMethodNotAllowed_content req conn allowed_methods :
  HeaderWriter.content (handleMethodNotAllowed req conn allowed_methods)
  = NOT_ALLOWED_HTML_START +:+ getMethod req +:+ NOT_ALLOWED_HTML_FINISH.
Proof.
  unfold handleMethodNotAllowed.
  destruct (negb (StdString.empty allowed_methods)); reflexivity.
Qed.

(** X17: the pages of the responders carry their variable text as it is
    given, without any escaping: the not-found and the forbidden page
    contain the current resource of the request, the server-error and the
    forbidden page the error message, the method-not-allowed page the
    method, whatever characters these strings hold. *)
Theorem error_pages_embed_verbatim req conn error_msg allowed_methods :
  (exists resp,
      handleNotFoundRequest req conn = [EvSend resp connection_finish]
      /\ StdString.contains (getResource req) (m_content resp) = true)
  /\ (exists resp,
        handleServerError req conn error_msg
        = [EvSend resp connection_finish]
        /\ StdString.contains error_msg (m_content resp) = true)
  /\ StdString.contains (getResource req)
       (HeaderWriter.content (handleForbiddenRequest req conn error_msg))
     = true
  /\ StdString.contains error_msg
       (HeaderWriter.content (handleForbiddenRequest req conn error_msg))
     = true
  /\ StdString.contains (getMethod req)
       (HeaderWriter.content
          (handleMethodNotAllowed req conn allowed_methods))
     = true.
Proof.
  split_and!.
  - rewrite handleNotFoundRequest_response. eexists. split; [done|].
    apply contains_app.
  - rewrite handleServerError_response. eexists. split; [done|].
    apply contains_app.
  - rewrite handleForbiddenRequest_content. apply contains_app.
  - rewrite handleForbiddenRequest_content.
    rewrite <- (app_assoc (getResource req)), <- (app_assoc _ _ (_ +:+ _)).
    apply contains_app.
  - rewrite handleMethodNotAllowed_content. apply contains_app.
Qed.

(** A resource with markup in it comes back as it is in the 404 page. *)
Example not_found_page_unescaped :
  exists resp,
    handleNotFoundRequest (Samples.get "/<script>alert(1)</script>")
      Samples.open_conn = [EvSend resp connection_finish]
    /\ StdString.contains "<script>alert(1)</script>" (m_content resp) = true.
Proof. eexists. split; [reflexivity|]. vm_compute. reflexivity. Qed.

(** ** The further properties at sample inputs *)

Lemma redirect_cycle_gives_server_error_witness :
  exists l,
    length l = 10%nat
    /\ handleRequest Samples.diag redirect_fuel
         (make_server [("/x", Samples.ok_handler)]
            Samples.redirect_into_cycle None)
         (Samples.get "/s/") Samples.open_conn no_error
       = Some {|
           out_request := rewritten (Samples.get "/s/") l;
           out_conn := Samples.open_conn;
           out_trace :=
             (EvChangeResource <$> l)
             ++ [EvServerError (rewritten (Samples.get "/s/") l)
                   REDIRECTS_EXCEEDED_MSG]
             ++ m_server_error_handler
                  (make_server [("/x", Samples.ok_handler)]
                     Samples.redirect_into_cycle None)
                  (rewritten (Samples.get "/s/") l) Samples.open_conn
                  REDIRECTS_EXCEEDED_MSG;
           out_thrown := None |}.
Proof.
  apply (redirect_cycle_gives_server_error Samples.diag redirect_fuel
           (make_server [("/x", Samples.ok_handler)]
              Samples.redirect_into_cycle None)
           (Samples.get "/s/") Samples.open_conn no_error
           ["/x"] ["/y"; "/x"]).
  - reflexivity.
  - reflexivity.
  - lia.
  - reflexivity.
  - discriminate.
  - reflexivity.
  - reflexivity.
Defined.

Lemma redirected_request_reaches_target_witness :
  handleRequest Samples.diag redirect_fuel
    (make_server [("/c", Samples.ok_handler)] (addRedirect "/old/" "/c/" ∅)
       None)
    (Samples.get "/old") Samples.open_conn no_error
  = Some {|
      out_request :=
        changeResource (Samples.get "/old") (stripTrailingSlash "/c/");
      out_conn := Samples.open_conn;
      out_trace :=
        [EvChangeResource (stripTrailingSlash "/c/")]
        ++ auth_events
             (make_server [("/c", Samples.ok_handler)]
                (addRedirect "/old/" "/c/" ∅) None)
             (changeResource (Samples.get "/old") (stripTrailingSlash "/c/"))
        ++ [EvHandler Samples.ok_handler
              (changeResource (Samples.get "/old")
                 (stripTrailingSlash "/c/"))];
      out_thrown := None |}
  /\ getOriginalResource
       (changeResource (Samples.get "/old") (stripTrailingSlash "/c/"))
     = getOriginalResource (Samples.get "/old").
Proof.
  apply (redirected_request_reaches_target Samples.diag redirect_fuel
           (make_server [("/c", Samples.ok_handler)]
              (addRedirect "/old/" "/c/" ∅) None)
           (Samples.get "/old") Samples.open_conn no_error ∅ "/old/" "/c/"
           Samples.ok_handler).
  - reflexivity.
  - reflexivity.
  - lia.
  - reflexivity.
  - reflexivity.
  - reflexivity.
  - vm_compute. discriminate.
  - reflexivity.
  - exact I.
  - reflexivity.
  - reflexivity.
Defined.

Lemma authentication_refusal_stops_witness :
  handleRequest Samples.diag redirect_fuel
    (make_server [("/c", Samples.ok_handler)] Samples.redirect_chain
       (Some Samples.deny_auth))
    (Samples.get "/a/") Samples.open_conn no_error
  = Some {|
      out_request := rewritten (Samples.get "/a/") ["/b"; "/c"];
      out_conn := Samples.open_conn;
      out_trace :=
        (EvChangeResource <$> ["/b"; "/c"])
        ++ [EvAuth (rewritten (Samples.get "/a/") ["/b"; "/c"]) false];
      out_thrown := None |}.
Proof.
  apply (authentication_refusal_stops Samples.diag redirect_fuel
           (make_server [("/c", Samples.ok_handler)] Samples.redirect_chain
              (Some Samples.deny_auth))
           (Samples.get "/a/") Samples.open_conn no_error ["/b"; "/c"]
           Samples.deny_auth).
  - reflexivity.
  - reflexivity.
  - lia.
  - exact redirect_chain_resolves.
  - reflexivity.
  - reflexivity.
Defined.

Lemma handler_return_ends_dispatch_witness :
  handleRequest Samples.diag redirect_fuel
    (make_server [("/c", Samples.ok_handler)] Samples.redirect_chain None)
    (Samples.get "/a/") Samples.open_conn no_error
  = Some {|
      out_request := rewritten (Samples.get "/a/") ["/b"; "/c"];
      out_conn := Samples.open_conn;
      out_trace :=
        (EvChangeResource <$> ["/b"; "/c"])
        ++ auth_events
             (make_server [("/c", Samples.ok_handler)] Samples.redirect_chain
                None)
             (rewritten (Samples.get "/a/") ["/b"; "/c"])
        ++ [EvHandler Samples.ok_handler
              (rewritten (Samples.get "/a/") ["/b"; "/c"])];
      out_thrown := None |}.
Proof.
  apply (handler_return_ends_dispatch Samples.diag redirect_fuel
           (make_server [("/c", Samples.ok_handler)] Samples.redirect_chain
              None)
           (Samples.get "/a/") Samples.open_conn no_error ["/b"; "/c"]
           Samples.ok_handler).
  - reflexivity.
  - reflexivity.
  - lia.
  - exact redirect_chain_resolves.
  - exact I.
  - reflexivity.
  - reflexivity.
Defined.

Lemma non_std_exception_propagates_witness :
  handleRequest Samples.diag redirect_fuel
    (make_server [("/c", Samples.throw_handler)] Samples.redirect_chain None)
    (Samples.get "/a/") Samples.open_conn no_error
  = Some {|
      out_request := rewritten (Samples.get "/a/") ["/b"; "/c"];
      out_conn := Samples.open_conn;
      out_trace :=
        (EvChangeResource <$> ["/b"; "/c"])
        ++ auth_events
             (make_server [("/c", Samples.throw_handler)]
                Samples.redirect_chain None)
             (rewritten (Samples.get "/a/") ["/b"; "/c"])
        ++ [EvHandler Samples.throw_handler
              (rewritten (Samples.get "/a/") ["/b"; "/c"])];
      out_thrown := Some non_std_exception |}.
Proof.
  apply (non_std_exception_propagates Samples.diag redirect_fuel
           (make_server [("/c", Samples.throw_handler)]
              Samples.redirect_chain None)
           (Samples.get "/a/") Samples.open_conn no_error ["/b"; "/c"]
           Samples.throw_handler).
  - reflexivity.
  - reflexivity.
  - lia.
  - exact redirect_chain_resolves.
  - exact I.
  - reflexivity.
  - reflexivity.
Defined.


(** ** The rewrites of every dispatch *)

Lemma redirect_path_targets (redirects : gmap string string) (n : nat)
    (r : string) (l : list string) :
  redirect_path redirects n r = Some l ->
  Forall (λ t, exists r', redirects !! r' = Some t) l.
Proof.
  revert r l. induction n as [|n IH]; intros r l; simpl.
  - intros [= <-]. constructor.
  - destruct (redirects !! r) as [t|] eqn:Hr; [|done].
    intros (l' & Hl' & ->)%fmap_Some. constructor; eauto.
Qed.

(** What follows the rewrites in a trace, with the default responders,
    holds no call of [changeResource]. *)
Lemma dispatch_makes_no_rewrite (diagnostic_information : exn -> string)
    (srv : HTTPServer) (resource : string) (req : HTTPRequest)
    (conn : connection) :
  m_not_found_handler srv = handleNotFoundRequest ->
  m_server_error_handler srv = handleServerError ->
  rewrites_in
    (authenticate_and_dispatch diagnostic_information srv resource req
       conn).1 = 0%nat.
Proof.
  intros Hnotfound Hserver.
  unfold authenticate_and_dispatch, lookup_and_invoke, invoke.
  rewrite Hnotfound, Hserver.
  destruct (m_auth_ptr srv) as [auth|]; [destruct (auth req conn)|];
    cbn [negb fst snd]; try done;
    (destruct (findRequestHandler (m_resources srv) resource) as [h|];
     [destruct (h req conn) as [[| |]|]|]); done.
Qed.

(** X18: with the default responders, whatever the redirect table, the
    trace of a valid request is a run of [changeResource] calls followed by
    a rest that holds none; the run follows the table from the stripped
    resource, one stored target after the other; it stops at the first
    resource without an entry, or else after [MAX_REDIRECTS] calls; so the
    trace holds at most [MAX_REDIRECTS] calls in all, and the request
    leaves the dispatcher with the last target as its resource (or with
    its own resource when there was no call). *)
Theorem rewrites_bounded_and_stored (diagnostic_information : exn -> string)
    (fuel : nat) (srv : HTTPServer) (req : HTTPRequest) (conn : connection)
    (ec : error_code) :
  ec_is_set ec = false -> isValid req = true ->
  (redirect_fuel <= fuel)%nat ->
  m_not_found_handler srv = handleNotFoundRequest ->
  m_server_error_handler srv = handleServerError ->
  exists out l rest,
    handleRequest diagnostic_information fuel srv req conn ec = Some out
    /\ out_trace out = (EvChangeResource <$> l) ++ rest
    /\ rewrites_in rest = 0%nat
    /\ rewrites_in (out_trace out) = length l
    /\ (Z.of_nat (rewrites_in (out_trace out)) <= MAX_REDIRECTS)%Z
    /\ redirect_path (m_redirects srv) (length l)
         (stripTrailingSlash (getResource req)) = Some l
    /\ (m_redirects srv
          !! List.last l (stripTrailingSlash (getResource req)) = None
        \/ Z.of_nat (length l) = MAX_REDIRECTS)
    /\ Forall (λ t, exists r, m_redirects srv !! r = Some t) l
    /\ out_request out = rewritten req l
    /\ getResource (out_request out) = List.last l (getResource req).
Proof.
  intros Hec Hvalid Hfuel Hnotfound Hserver.
  assert (forall l rest, rewrites_in rest = 0%nat ->
            rewrites_in ((EvChangeResource <$> l) ++ rest) = length l)
    as Hcount.
  { intros l rest Hrest. rewrite rewrites_in_app, Hrest.
    destruct (changes_quiet l) as (_ & _ & ->). lia. }
  destruct (resolves_or_exceeds (m_redirects srv) req) as [[l Hres]|Hex].
  - rewrite (handleRequest_resolved _ fuel srv req conn ec l) by done.
    destruct Hres as (Hpath & Hlen & Hend).
    pose proof (dispatch_makes_no_rewrite diagnostic_information srv
                  (List.last l (stripTrailingSlash (getResource req)))
                  (rewritten req l) conn Hnotfound Hserver) as Hrest.
    eexists _, l, _. cbn [out_trace out_request].
    split_and!; [done|done|done|by apply Hcount| |done|by left| |done|].
    + cbn [out_trace]. by rewrite Hcount.
    + by eapply redirect_path_targets.
    + apply rewritten_fields.
  - destruct (handleRequest_exceeded diagnostic_information fuel srv req
                conn ec Hec Hvalid Hfuel Hex) as (l & Hl & ->).
    pose proof (redirect_path_length _ _ _ _ Hl) as Hlen.
    rewrite Hserver, handleServerError_response.
    eexists _, l, _. cbn [out_trace out_request].
    rewrite <- Hlen in Hl.
    split_and!; [done|done|done|by apply Hcount| |done|right; bound_lia| |
                 done|].
    + cbn [out_trace]. rewrite Hcount by done. bound_lia.
    + by eapply redirect_path_targets.
    + apply rewritten_fields.
Qed.

Lemma rewrites_bounded_and_stored_witness :
  exists out l rest,
    handleRequest Samples.diag redirect_fuel
      (make_server [] Samples.redirect_into_cycle None) (Samples.get "/s")
      Samples.open_conn no_error = Some out
    /\ out_trace out = (EvChangeResource <$> l) ++ rest
    /\ rewrites_in rest = 0%nat
    /\ rewrites_in (out_trace out) = length l
    /\ (Z.of_nat (rewrites_in (out_trace out)) <= MAX_REDIRECTS)%Z
    /\ redirect_path
         (m_redirects (make_server [] Samples.redirect_into_cycle None))
         (length l) (stripTrailingSlash (getResource (Samples.get "/s")))
       = Some l
    /\ (m_redirects (make_server [] Samples.redirect_into_cycle None)
          !! List.last l (stripTrailingSlash (getResource (Samples.get "/s")))
        = None
        \/ Z.of_nat (length l) = MAX_REDIRECTS)
    /\ Forall (λ t, exists r,
                 m_redirects (make_server [] Samples.redirect_into_cycle None)
                   !! r = Some t) l
    /\ out_request out = rewritten (Samples.get "/s") l
    /\ getResource (out_request out)
       = List.last l (getResource (Samples.get "/s")).
Proof.
  apply (rewrites_bounded_and_stored Samples.diag redirect_fuel
           (make_server [] Samples.redirect_into_cycle None)
           (Samples.get "/s") Samples.open_conn no_error).
  - reflexivity.
  - reflexivity.
  - lia.
  - reflexivity.
  - reflexivity.
Defined.

(** The self-redirection: ten calls in the trace, no more. *)
Example self_redirect_rewrites :
  (rewrites_in ∘ out_trace) <$>
    handleRequest Samples.diag redirect_fuel
      (make_server [] Samples.redirect_self None) (Samples.get "/s")
      Samples.open_conn no_error
  = Some 10%nat.
Proof. vm_compute. reflexivity. Qed.
